(** * flirptu: the PTU serial driver (src/flirptu/ptu.py)

    A shallow embedding of the [PTU] class: command framing and validation
    ([send]), the unsolicited-input check ([__send_command],
    [__handle_async_input]), the response reader ([__get_response]), the
    cached echo state, the acknowledged motion commands and the angle
    conversion.

    Python values are modelled as follows.
    - [bytes]: a list of byte values (numbers below 256).
    - [str]: a list of Unicode code points.
    - [float]: IEEE binary64, Rocq's primitive floats.
    - exceptions: the [exn] type; a method of the class is a function
      from the object's state to an outcome and the state it leaves, so
      that what was mutated before a [raise] stays mutated.
    - pyserial's [Serial] object: the receive buffer, the log of written
      frames and the replies the device is going to give. *)

From Stdlib Require Import String Ascii.
From Stdlib Require Import ZArith NArith List Bool Lia.
From Stdlib Require Import DecimalString DecimalPos.
From Stdlib Require Import Floats.PrimFloat Floats.SpecFloat Floats.FloatOps.
Import ListNotations.

Set Implicit Arguments.

(** ** Python values *)

Definition bytes := list N.
Definition text := list N.

Definition bstr (s : string) : bytes :=
  map N_of_ascii (list_ascii_of_string s).

Definition ustr (s : string) : text :=
  map N_of_ascii (list_ascii_of_string s).

(** The code point of an ASCII character. *)
Definition chr (a : ascii) : N := N_of_ascii a.

(** A value whose run-time type matters: [isinstance] and [==] tell a
    [str] from a [bytes]. *)
Inductive pyval :=
| VStr (s : text)
| VBytes (b : bytes).

(** The argument of [send]: text, bytes, or an object that has an
    [upper] method and is neither (a [bytearray]). *)
Inductive candidate :=
| PyStr (s : text)
| PyBytes (b : bytes)
| PyByteArray (b : bytes).

Inductive exn :=
| ValueError (msg : string)
| TypeError (msg : string)
| RuntimeError (msg : string)
| AttributeError
| AssertionError
| IndexError
| UnicodeDecodeError
| UnicodeEncodeError
| ZeroDivisionError
| OverflowError.

(** [UnicodeDecodeError] and [UnicodeEncodeError] are subclasses of
    [ValueError]. *)
Definition is_ValueError (e : exn) : bool :=
  match e with
  | ValueError _ | UnicodeDecodeError | UnicodeEncodeError => true
  | _ => false
  end.

Inductive result (A : Type) :=
| Ok (a : A)
| Raise (e : exn).
Arguments Ok {A} a.
Arguments Raise {A} e.

Definition is_ok {A} (r : result A) : bool :=
  match r with Ok _ => true | Raise _ => false end.

Definition of_option {A} (e : exn) (o : option A) : result A :=
  match o with Some a => Ok a | None => Raise e end.

(** *** Sequences: [len], [s[i]], [s[lo:hi]], [==], [in] *)

Definition len {A} (s : list A) : Z := Z.of_nat (length s).

(** An index or slice bound below zero counts from the end. *)
Definition slice_bound (n i : Z) : Z :=
  if (i <? 0)%Z then Z.max 0 (n + i) else Z.min i n.

Definition py_slice {A} (s : list A) (lo hi : Z) : list A :=
  let lo' := slice_bound (len s) lo in
  let hi' := slice_bound (len s) hi in
  firstn (Z.to_nat (hi' - lo')) (skipn (Z.to_nat lo') s).

Definition py_getitem {A} (s : list A) (i : Z) : result A :=
  let j := if (i <? 0)%Z then (len s + i)%Z else i in
  if (j <? 0)%Z then Raise IndexError
  else of_option IndexError (nth_error s (Z.to_nat j)).

Definition seq_eqb (a b : list N) : bool :=
  if list_eq_dec N.eq_dec a b then true else false.

(** [a == b]: a [str] never equals a [bytes]. *)
Definition py_eq (a b : pyval) : bool :=
  match a, b with
  | VStr x, VStr y => seq_eqb x y
  | VBytes x, VBytes y => seq_eqb x y
  | _, _ => false
  end.

(** [x in l] *)
Definition py_in (x : pyval) (l : list pyval) : bool :=
  existsb (py_eq x) l.

(** *** [bytes.upper], [str.upper], [str.lower], [str.split] *)

Definition ascii_upper (c : N) : N :=
  if (97 <=? c)%N && (c <=? 122)%N then (c - 32)%N else c.

Definition ascii_lower (c : N) : N :=
  if (65 <=? c)%N && (c <=? 90)%N then (c + 32)%N else c.

Definition is_ascii (c : N) : bool := (c <? 128)%N.

Definition bytes_upper (b : bytes) : bytes := map ascii_upper b.

(** Case mapping of the code points above ASCII comes from the Unicode
    tables of the interpreter. They are a parameter, of which only this
    is used: upper-casing works one code point at a time and neither
    drops a code point nor produces a space, and lower-casing an ASCII
    string maps [A-Z] to [a-z]. *)
Class UnicodeCase := {
  upper_full : N -> text;
  str_lower : text -> text;
  upper_full_nonempty : forall c, upper_full c <> [];
  upper_full_nospace : forall c, (128 <= c)%N -> ~ In 32%N (upper_full c);
  str_lower_ascii :
    forall s, forallb is_ascii s = true -> str_lower s = map ascii_lower s
}.

Definition upper_char `{UnicodeCase} (c : N) : text :=
  if is_ascii c then [ascii_upper c] else upper_full c.

Definition str_upper `{UnicodeCase} (s : text) : text :=
  flat_map upper_char s.

(** [command.upper()] *)
Definition upper `{UnicodeCase} (c : candidate) : candidate :=
  match c with
  | PyStr s => PyStr (str_upper s)
  | PyBytes b => PyBytes (bytes_upper b)
  | PyByteArray b => PyByteArray (bytes_upper b)
  end.

(** [str.isspace] of one code point. *)
Definition is_space (c : N) : bool :=
  ((9 <=? c) && (c <=? 13) || (28 <=? c) && (c <=? 32)
   || (c =? 133) || (c =? 160) || (c =? 5760)
   || (8192 <=? c) && (c <=? 8202)
   || (c =? 8232) || (c =? 8233) || (c =? 8239) || (c =? 8287)
   || (c =? 12288))%N.

(** [s.split()]: the maximal runs of non-space code points, in order.
    [cur] is the run being read, reversed. *)
Fixpoint split_aux (s : text) (cur : text) : list text :=
  match s with
  | [] => match cur with [] => [] | _ => [rev cur] end
  | c :: s' =>
      if is_space c
      then match cur with
           | [] => split_aux s' []
           | _ => rev cur :: split_aux s' []
           end
      else split_aux s' (c :: cur)
  end.

Definition split (s : text) : list text := split_aux s [].

(** A string without a space character, and words put one space apart:
    what [split] is measured against. *)
Definition no_space (t : text) : bool :=
  forallb (fun c => negb (is_space c)) t.


(** *** UTF-8: [bytes.decode()] and [str.encode()] *)

Definition is_cont (b : N) : bool := ((128 <=? b) && (b <=? 191))%N.

Definition cont (b : N) : N := (b - 128)%N.

Fixpoint utf8_decode (bs : bytes) : option text :=
  match bs with
  | [] => Some []
  | b0 :: r0 =>
      if (b0 <? 128)%N then option_map (cons b0) (utf8_decode r0)
      else if (b0 <? 194)%N then None
      else if (b0 <? 224)%N then
        match r0 with
        | b1 :: r1 =>
            if is_cont b1
            then option_map (cons ((b0 - 192) * 64 + cont b1)%N)
                            (utf8_decode r1)
            else None
        | _ => None
        end
      else if (b0 <? 240)%N then
        match r0 with
        | b1 :: b2 :: r2 =>
            if is_cont b1 && is_cont b2
               && (negb (b0 =? 224)%N || (160 <=? b1)%N)
               && (negb (b0 =? 237)%N || (b1 <=? 159)%N)
            then option_map
                   (cons ((b0 - 224) * 4096 + cont b1 * 64 + cont b2)%N)
                   (utf8_decode r2)
            else None
        | _ => None
        end
      else if (b0 <? 245)%N then
        match r0 with
        | b1 :: b2 :: b3 :: r3 =>
            if is_cont b1 && is_cont b2 && is_cont b3
               && (negb (b0 =? 240)%N || (144 <=? b1)%N)
               && (negb (b0 =? 244)%N || (b1 <=? 143)%N)
            then option_map
                   (cons ((b0 - 240) * 262144 + cont b1 * 4096
                          + cont b2 * 64 + cont b3)%N)
                   (utf8_decode r3)
            else None
        | _ => None
        end
      else None
  end.

Definition utf8_encode_char (c : N) : option bytes :=
  if (c <? 128)%N then Some [c]
  else if (c <? 2048)%N then Some [192 + c / 64; 128 + c mod 64]%N
  else if (c <? 65536)%N then
    if (55296 <=? c)%N && (c <=? 57343)%N then None
    else Some [224 + c / 4096; 128 + (c / 64) mod 64; 128 + c mod 64]%N
  else if (c <? 1114112)%N then
    Some [240 + c / 262144; 128 + (c / 4096) mod 64;
          128 + (c / 64) mod 64; 128 + c mod 64]%N
  else None.

Fixpoint utf8_encode (s : text) : option bytes :=
  match s with
  | [] => Some []
  | c :: s' =>
      match utf8_encode_char c, utf8_encode s' with
      | Some b, Some bs => Some (b ++ bs)
      | _, _ => None
      end
  end.

(** The decimal numeral of an integer [n], with its sign. *)
Definition str_int (n : Z) : text :=
  ustr (NilZero.string_of_int (Z.to_int n)).

(** What conversions between [int] and [str] take from the interpreter:
    the value of the decimal digits above ASCII, and the limit on the
    number of digits of a numeral (zero when there is none; it cannot be
    set below 640). *)
Class IntSettings := {
  decimal_value : N -> option N;
  max_str_digits : N;
  decimal_value_digit :
    forall c d, decimal_value c = Some d -> (d < 10)%N;
  max_str_digits_floor :
    max_str_digits = 0%N \/ (640 <= max_str_digits)%N
}.

(** A count, as an error message shows it. *)
Definition show_count (n : N) : string := NilZero.string_of_uint (N.to_uint n).

(** The number of decimal digits of [n], the sign not counted. *)
Definition digits (n : Z) : N := N.of_nat (length (str_int (Z.abs n))).

(** Whether [n] has no more digits than the limit lets [str] write. *)
Definition within_digits `{IntSettings} (n : Z) : bool :=
  negb ((0 <? max_str_digits)%N && (max_str_digits <? digits n)%N).

(** The [ValueError] of [str] for an [int] above the limit. *)
Definition too_long_to_write `{IntSettings} : exn :=
  ValueError ("Exceeds the limit (" ++ show_count max_str_digits
              ++ " digits) for integer string conversion;"
              ++ " use sys.set_int_max_str_digits() to increase the limit")
             %string.

(** [str(int(n))] for an integer [n]. *)
Definition py_str `{IntSettings} (n : Z) : result text :=
  if within_digits n then Ok (str_int n) else Raise too_long_to_write.


(** ** The state of a [PTU] object *)

(** pyserial's [Serial], as the driver sees it. Writing a frame makes
    the device's next reply arrive in the receive buffer. *)
Record Serial := mkSerial {
  rx : bytes;            (* bytes received and not yet read *)
  tx : list bytes;       (* frames written, oldest first *)
  device : list bytes    (* what the device answers to the coming writes *)
}.

Inductive category := UserWarning | RuntimeWarning.

Inductive mode := mode_pos | mode_vel.

Record PTU := mkPTU {
  serial : Serial;
  echo : bool;
  panResolution : float;
  tiltResolution : float;
  minPan : Z;
  maxPan : Z;
  minTilt : Z;
  maxTilt : Z;
  maxPanSpeed : Z;
  maxTiltSpeed : Z;
  controlMode : mode;
  warnings : list (category * text)   (* what [warn] was called with *)
}.

Definition with_serial (p : Serial) (s : PTU) : PTU :=
  mkPTU p (echo s) (panResolution s) (tiltResolution s) (minPan s)
        (maxPan s) (minTilt s) (maxTilt s) (maxPanSpeed s)
        (maxTiltSpeed s) (controlMode s) (warnings s).

Definition with_echo (e : bool) (s : PTU) : PTU :=
  mkPTU (serial s) e (panResolution s) (tiltResolution s) (minPan s)
        (maxPan s) (minTilt s) (maxTilt s) (maxPanSpeed s)
        (maxTiltSpeed s) (controlMode s) (warnings s).

Definition with_warnings (w : list (category * text)) (s : PTU) : PTU :=
  mkPTU (serial s) (echo s) (panResolution s) (tiltResolution s)
        (minPan s) (maxPan s) (minTilt s) (maxTilt s) (maxPanSpeed s)
        (maxTiltSpeed s) (controlMode s) w.

(** ** Methods: state and exceptions *)

Definition M (A : Type) : Type := PTU -> result A * PTU.

Definition ret {A} (a : A) : M A := fun s => (Ok a, s).

Definition raise {A} (e : exn) : M A := fun s => (Raise e, s).

Definition bind {A B} (m : M A) (f : A -> M B) : M B :=
  fun s =>
    match m s with
    | (Ok a, s') => f a s'
    | (Raise e, s') => (Raise e, s')
    end.

Definition lift {A} (r : result A) : M A := fun s => (r, s).

Declare Scope ptu_scope.
Delimit Scope ptu_scope with ptu.
Notation "x <- m ;; k" := (bind m (fun x => k))
  (at level 61, m at next level, right associativity) : ptu_scope.
Notation "m ;; k" := (bind m (fun _ => k))
  (at level 61, right associativity) : ptu_scope.
Local Open Scope ptu_scope.

(** [warnings.warn(msg, category)] *)
Definition warn (c : category) (msg : text) : M unit :=
  fun s => (Ok tt, with_warnings (warnings s ++ [(c, msg)]) s).

(** *** The port *)

Definition _TERM : bytes := [13; 10]%N.

Definition CRLF : text := [13; 10]%N.

(** [self.serial.in_waiting] *)
Definition in_waiting : M Z :=
  fun s => (Ok (len (rx (serial s))), s).

(** [self.serial.read(size)] with [size] at most what is buffered. *)
Definition serial_read (size : Z) : M bytes :=
  fun s =>
    let p := serial s in
    (Ok (firstn (Z.to_nat size) (rx p)),
     with_serial (mkSerial (skipn (Z.to_nat size) (rx p)) (tx p) (device p))
                 s).

(** [self.serial.write(data)] *)
Definition serial_write (data : bytes) : M unit :=
  fun s =>
    let p := serial s in
    (Ok tt,
     with_serial (mkSerial (rx p ++ hd [] (device p)) (tx p ++ [data])
                           (tl (device p)))
                 s).

(** [read_until]: bytes are taken one at a time until the line read so
    far ends with [expected]; when the buffer runs dry first (the read
    times out), what was read is returned. [line] is kept reversed. *)
Fixpoint read_until_from (expected : bytes) (buf line : bytes)
  : bytes * bytes :=
  match buf with
  | [] => (rev line, [])
  | c :: buf' =>
      if seq_eqb (firstn (length expected) (c :: line)) (rev expected)
      then (rev (c :: line), buf')
      else read_until_from expected buf' (c :: line)
  end.

Definition read_until (expected : bytes) (buf : bytes) : bytes * bytes :=
  read_until_from expected buf [].

(** [self.serial.read_until(expected)] *)
Definition serial_read_until (expected : bytes) : M bytes :=
  fun s =>
    let p := serial s in
    let '(line, rest) := read_until expected (rx p) in
    (Ok line, with_serial (mkSerial rest (tx p) (device p)) s).

(** *** Basic serial functions *)

(** [contents.encode()]: only a [str] has the method. *)
Definition encode_method (contents : pyval) : result pyval :=
  match contents with
  | VStr s => of_option UnicodeEncodeError (option_map VBytes (utf8_encode s))
  | VBytes _ => Raise AttributeError
  end.

Definition double_quote : string := String (ascii_of_nat 34) EmptyString.

(** What [str + bytes] raises: the text names the type of the right
    operand between double quotes. *)
Definition cannot_concatenate_bytes : exn :=
  TypeError ("can only concatenate str (not " ++ double_quote ++ "bytes"
             ++ double_quote ++ ") to str")%string.

(** [a + b] with [a] a [str]. *)
Definition str_add (a : text) (b : pyval) : result text :=
  match b with
  | VStr s => Ok (a ++ s)
  | VBytes _ => Raise cannot_concatenate_bytes
  end.

Definition __handle_async_input (contents : pyval) : M unit :=
  enc <- lift (encode_method contents);;
  msg <- lift (str_add (ustr "Device asynchronously displayed: ") enc);;
  warn RuntimeWarning msg.

Definition __send_command (command : candidate) : M unit :=
  command <- match command with
             | PyStr s => lift (of_option UnicodeEncodeError (utf8_encode s))
             | PyBytes b => ret b
             | PyByteArray _ => raise AssertionError
             end;;
  n <- in_waiting;;
  (if (n >? 0)%Z
   then (n' <- in_waiting;;
         contents <- serial_read n';;
         __handle_async_input (VBytes contents))
   else ret tt);;
  serial_write command.

Definition __get_response : M text :=
  raw <- serial_read_until _TERM;;
  lift (of_option UnicodeDecodeError (utf8_decode raw)).

(** ** Properties *)

(** [self.echo] *)
Definition get_echo : M bool := fun s => (Ok (echo s), s).

(** [self.__echo = on] *)
Definition set_echo (on : bool) : M unit := fun s => (Ok tt, with_echo on s).

(** The setter of [echo]; its argument is a [bool]. *)
Definition echo_setter (on : bool) : M unit :=
  if on
  then (__send_command (PyBytes (bstr "EE "));;
        __get_response;;
        set_echo true)
  else (__send_command (PyBytes (bstr "ED "));;
        __get_response;;
        set_echo false).

(** ** [send] *)

Definition rbind {A B} (r : result A) (f : A -> result B) : result B :=
  match r with Ok a => f a | Raise e => Raise e end.

Definition must_end_with_space : exn :=
  ValueError "Commands must end with a space (' ')".

(** The head of [send]: the command is upper-cased, its last character
    is checked, and a [str] is encoded; the frame to transmit comes
    out. *)
Definition encode_command `{UnicodeCase} (command : candidate)
  : result bytes :=
  match upper command with
  | PyStr s =>
      rbind (py_getitem s (-1)) (fun c =>
      if negb (c =? chr " ")%N then Raise must_end_with_space
      else of_option UnicodeEncodeError (utf8_encode s))
  | PyBytes b =>
      rbind (of_option UnicodeDecodeError (utf8_decode b)) (fun d =>
      rbind (py_getitem d (-1)) (fun c =>
      if negb (c =? chr " ")%N then Raise must_end_with_space
      else Ok b))
  | PyByteArray _ => Raise (TypeError "Commands should be of type bytes")
  end.

Definition limit_mnemonics : list pyval :=
  map VStr [ustr "LE"; ustr "LD"; ustr "LU"; ustr "PNU"; ustr "PXU";
            ustr "TNU"; ustr "TXU"].

Definition execution_mnemonics : list pyval :=
  map VStr [ustr "I"; ustr "S"].

Definition monitor_mnemonics : list pyval :=
  map VStr [ustr "ME"; ustr "MD"].

Definition limits_unsupported : text :=
  ustr "Setting limits is not currently supported".

Definition execution_unsupported : text :=
  ustr "Changing execution mode is not currently supported".

Definition monitor_unsupported : text :=
  ustr "Monitoring is not currently supported".

Definition send `{UnicodeCase} (command : candidate) (strip_echo : bool)
  : M text :=
  command <- lift (encode_command command);;
  (if py_in (VBytes (py_slice command 0 (-1))) limit_mnemonics
   then warn UserWarning limits_unsupported
   else if py_in (VBytes (py_slice command 0 (-1))) execution_mnemonics
   then warn UserWarning execution_unsupported
   else if py_in (VBytes (py_slice command 0 (-1))) monitor_mnemonics
   then warn UserWarning monitor_unsupported
   else ret tt);;
  __send_command (PyBytes command);;
  response <- __get_response;;
  (if py_eq (VBytes command) (VBytes (bstr "EE ")) then set_echo true
   else if py_eq (VBytes command) (VBytes (bstr "ED ")) then set_echo false
   else ret tt);;
  e <- get_echo;;
  if strip_echo && e
  then ret (py_slice response (len command) (len response - len _TERM))
  else ret (py_slice response 0 (len response - len _TERM)).

(** ** Initial state *)

Definition _determine_control_mode `{UnicodeCase} : M mode :=
  response <- send (PyBytes (bstr "C ")) true;;
  token <- lift (py_getitem (split response) 5);;
  ret (if seq_eqb (str_lower token) (ustr "independent")
       then mode_pos else mode_vel).

(** ** Pan and tilt commands *)

(** [str(int(n)).encode()] *)
Definition int_arg `{IntSettings} (n : Z) : M bytes :=
  s <- lift (py_str n);;
  lift (of_option UnicodeEncodeError (utf8_encode s)).

(** [if blocking: self.send(b'A ')] *)
Definition await `{UnicodeCase} (blocking : bool) : M unit :=
  if blocking then (send (PyBytes (bstr "A ")) true;; ret tt) else ret tt.

Definition setPanPosition `{UnicodeCase} `{IntSettings} (pos : Z)
  (blocking : bool) : M bool :=
  arg <- int_arg pos;;
  resp <- send (PyBytes (bstr "PP" ++ arg ++ bstr " ")) true;;
  await blocking;;
  c <- lift (py_getitem resp 0);;
  if negb (c =? chr "*")%N
  then (warn RuntimeWarning (ustr "Pan position response: " ++ resp);;
        ret false)
  else ret true.

Definition setTiltPosition `{UnicodeCase} `{IntSettings} (pos : Z)
  (blocking : bool) : M bool :=
  arg <- int_arg pos;;
  resp <- send (PyBytes (bstr "TP" ++ arg ++ bstr " ")) true;;
  await blocking;;
  c <- lift (py_getitem resp 0);;
  if negb (c =? chr "*")%N
  then (warn RuntimeWarning (ustr "Tilt position response: " ++ resp);;
        ret false)
  else ret true.

Definition setPanSpeed `{UnicodeCase} `{IntSettings} (speed : Z)
  (blocking : bool) : M bool :=
  arg <- int_arg speed;;
  resp <- send (PyBytes (bstr "PS" ++ arg ++ bstr " ")) true;;
  await blocking;;
  c <- lift (py_getitem resp 0);;
  if negb (c =? chr "*")%N
  then (warn RuntimeWarning (ustr "Pan speed response: " ++ resp);;
        ret false)
  else ret true.

Definition setTiltSpeed `{UnicodeCase} `{IntSettings} (speed : Z)
  (blocking : bool) : M bool :=
  arg <- int_arg speed;;
  resp <- send (PyBytes (bstr "TS" ++ arg ++ bstr " ")) true;;
  await blocking;;
  c <- lift (py_getitem resp 0);;
  if negb (c =? chr "*")%N
  then (warn RuntimeWarning (ustr "Tilt speed response: " ++ resp);;
        ret false)
  else ret true.

Definition setPositionAndSpeed `{UnicodeCase} `{IntSettings}
  (panPos tiltPos panSpeed tiltSpeed : Z) (blocking : bool) : M bool :=
  a1 <- int_arg panPos;;
  a2 <- int_arg tiltPos;;
  a3 <- int_arg panSpeed;;
  a4 <- int_arg tiltSpeed;;
  resp <- send (PyBytes (bstr "B" ++ a1 ++ bstr "," ++ a2 ++ bstr ","
                         ++ a3 ++ bstr "," ++ a4 ++ bstr " ")) true;;
  await blocking;;
  c <- lift (py_getitem resp 0);;
  if negb (c =? chr "*")%N
  then (warn RuntimeWarning
             (ustr "Set position and speed response: " ++ resp);;
        ret false)
  else ret true.

Definition halt `{UnicodeCase} : M bool :=
  resp <- send (PyStr (ustr "H ")) true;;
  c <- lift (py_getitem resp 0);;
  ret (c =? chr "*")%N.

Definition setPanPositionOffset `{UnicodeCase} `{IntSettings}
  (offset : Z) (blocking : bool) : M bool :=
  arg <- int_arg offset;;
  resp <- send (PyBytes (bstr "PO" ++ arg ++ bstr " ")) true;;
  await blocking;;
  c <- lift (py_getitem resp 0);;
  if negb (c =? chr "*")%N
  then (warn RuntimeWarning (ustr "Pan position offset response: " ++ resp);;
        ret false)
  else ret true.

Definition setTiltPositionOffset `{UnicodeCase} `{IntSettings}
  (offset : Z) (blocking : bool) : M bool :=
  arg <- int_arg offset;;
  resp <- send (PyBytes (bstr "TO" ++ arg ++ bstr " ")) true;;
  await blocking;;
  c <- lift (py_getitem resp 0);;
  if negb (c =? chr "*")%N
  then (warn RuntimeWarning
             (ustr "Tilt position offset response: " ++ resp);;
        ret false)
  else ret true.

Definition setPanSpeedOffset `{UnicodeCase} `{IntSettings}
  (offset : Z) (blocking : bool) : M bool :=
  arg <- int_arg offset;;
  resp <- send (PyBytes (bstr "PD" ++ arg ++ bstr " ")) true;;
  await blocking;;
  c <- lift (py_getitem resp 0);;
  if negb (c =? chr "*")%N
  then (warn RuntimeWarning (ustr "Pan speed offset response: " ++ resp);;
        ret false)
  else ret true.

Definition setTiltSpeedOffset `{UnicodeCase} `{IntSettings}
  (offset : Z) (blocking : bool) : M bool :=
  arg <- int_arg offset;;
  resp <- send (PyBytes (bstr "TD" ++ arg ++ bstr " ")) true;;
  await blocking;;
  c <- lift (py_getitem resp 0);;
  if negb (c =? chr "*")%N
  then (warn RuntimeWarning (ustr "Tilt speed offset response: " ++ resp);;
        ret false)
  else ret true.

(** ** Angles to positions *)

(** [x / y] on floats. *)
Definition py_truediv (x y : float) : result float :=
  if PrimFloat.eqb y 0%float then Raise ZeroDivisionError
  else Ok (x / y)%float.

(** The integer nearest to [m * 2^e], ties to the even one. *)
Definition round_half_even (m : positive) (e : Z) : Z :=
  if (0 <=? e)%Z then (Z.pos m * 2 ^ e)%Z
  else
    let d := (2 ^ (- e))%Z in
    let q := (Z.pos m / d)%Z in
    let r := (Z.pos m mod d)%Z in
    match (2 * r ?= d)%Z with
    | Lt => q
    | Gt => (q + 1)%Z
    | Eq => if Z.even q then q else (q + 1)%Z
    end.

(** [round(x)] of a float: an [int]. *)
Definition py_round (x : float) : result Z :=
  match Prim2SF x with
  | S754_nan => Raise (ValueError "cannot convert float NaN to integer")
  | S754_infinity _ => Raise OverflowError
  | S754_zero _ => Ok 0%Z
  | S754_finite sign m e =>
      Ok (if sign then (- round_half_even m e)%Z else round_half_even m e)
  end.

(** [self.panResolution] *)
Definition get_panResolution : M float := fun s => (Ok (panResolution s), s).

Definition panAngleToPosition (angle : float) : M Z :=
  res <- get_panResolution;;
  per_degree <- lift (py_truediv res 3600%float);;
  quotient <- lift (py_truediv angle per_degree);;
  lift (py_round quotient).

Definition tiltAngleToPosition (angle : float) : M Z :=
  res <- get_panResolution;;
  per_degree <- lift (py_truediv res 3600%float);;
  quotient <- lift (py_truediv angle per_degree);;
  lift (py_round quotient).

(** The conversion as the documentation words it,
    [round(angle * 3600 / resolution)], in float arithmetic. *)
Definition documented_position (angle resolution : float) : result Z :=
  rbind (py_truediv (angle * 3600)%float resolution) py_round.

(** The same formula on the exact values of the two floats:
    [angle = ma * 2^ea], [resolution = mr * 2^er], signs apart. *)
Definition round_ratio (num den : Z) : Z :=
  let q := (num / den)%Z in
  let r := (num mod den)%Z in
  match (2 * r ?= den)%Z with
  | Lt => q
  | Gt => (q + 1)%Z
  | Eq => if Z.even q then q else (q + 1)%Z
  end.

Definition pow2_num (e : Z) : Z := if (0 <=? e)%Z then (2 ^ e)%Z else 1%Z.
Definition pow2_den (e : Z) : Z := if (0 <=? e)%Z then 1%Z else (2 ^ (- e))%Z.

Definition exact_position (angle resolution : float) : option Z :=
  match Prim2SF angle, Prim2SF resolution with
  | S754_finite sa ma ea, S754_finite sr mr er =>
      let num := (Z.pos ma * 3600 * pow2_num ea * pow2_den er)%Z in
      let den := (Z.pos mr * pow2_num er * pow2_den ea)%Z in
      let z := round_ratio num den in
      Some (if xorb sa sr then (- round_ratio num den)%Z else z)
  | _, _ => None
  end.

(** ** A case table and a session to run the driver on *)

(** The table that leaves every code point above ASCII alone. *)
#[export, refine] Instance ascii_case : UnicodeCase := {
  upper_full := fun c => [c];
  str_lower := map ascii_lower
}.
Proof.
  - intros c; discriminate.
  - intros c Hc [Heq | []]; subst c; lia.
  - reflexivity.
Defined.

Definition idle_port (replies : list bytes) : Serial :=
  mkSerial [] [] replies.

Definition session (p : Serial) (e : bool) : PTU :=
  mkPTU p e 5%float 5%float (-3000) 3000 (-900) 600 12000 12000 mode_pos [].

(** ** What a round trip on an idle port does *)

(** The line [__get_response] reads after a write: up to the first
    terminator in what is buffered followed by the device's answer. *)
Definition next_line (p : Serial) : bytes :=
  fst (read_until _TERM (rx p ++ hd [] (device p))).

(** The port after one frame was written and one line read. *)
Definition after_round_trip (frame : bytes) (p : Serial) : Serial :=
  mkSerial (snd (read_until _TERM (rx p ++ hd [] (device p))))
           (tx p ++ [frame]) (tl (device p)).

(** The frame of the echo toggle: [EE ] enables, [ED ] disables. *)
Definition toggle (on : bool) : bytes :=
  if on then bstr "EE " else bstr "ED ".

(** The echo state [send] leaves: the two toggle frames set it. *)
Definition toggled (frame : bytes) (e : bool) : bool :=
  if seq_eqb frame (bstr "EE ") then true
  else if seq_eqb frame (bstr "ED ") then false
  else e.

(** The reply with [len(frame)] leading characters cut when [cut] is
    set, and the two characters of the terminator cut. *)
Definition strip_reply (cut : bool) (frame : bytes) (response : text)
  : text :=
  if cut
  then py_slice response (len frame) (len response - len _TERM)
  else py_slice response 0 (len response - len _TERM).

(** The acknowledged commands, to speak of them all at once. *)
Inductive mutation :=
| SetPanPosition (pos : Z)
| SetTiltPosition (pos : Z)
| SetPanSpeed (speed : Z)
| SetTiltSpeed (speed : Z)
| SetPositionAndSpeed (panPos tiltPos panSpeed tiltSpeed : Z)
| SetPanPositionOffset (offset : Z)
| SetTiltPositionOffset (offset : Z)
| SetPanSpeedOffset (offset : Z)
| SetTiltSpeedOffset (offset : Z).

Definition call `{UnicodeCase} `{IntSettings} (m : mutation)
  (blocking : bool) : M bool :=
  match m with
  | SetPanPosition pos => setPanPosition pos blocking
  | SetTiltPosition pos => setTiltPosition pos blocking
  | SetPanSpeed speed => setPanSpeed speed blocking
  | SetTiltSpeed speed => setTiltSpeed speed blocking
  | SetPositionAndSpeed a b c d => setPositionAndSpeed a b c d blocking
  | SetPanPositionOffset offset => setPanPositionOffset offset blocking
  | SetTiltPositionOffset offset => setTiltPositionOffset offset blocking
  | SetPanSpeedOffset offset => setPanSpeedOffset offset blocking
  | SetTiltSpeedOffset offset => setTiltSpeedOffset offset blocking
  end.

(** The frame each of them transmits. *)
Definition frame_of (m : mutation) : bytes :=
  match m with
  | SetPanPosition pos => bstr "PP" ++ str_int pos ++ bstr " "
  | SetTiltPosition pos => bstr "TP" ++ str_int pos ++ bstr " "
  | SetPanSpeed speed => bstr "PS" ++ str_int speed ++ bstr " "
  | SetTiltSpeed speed => bstr "TS" ++ str_int speed ++ bstr " "
  | SetPositionAndSpeed a b c d =>
      bstr "B" ++ str_int a ++ bstr "," ++ str_int b ++ bstr ","
      ++ str_int c ++ bstr "," ++ str_int d ++ bstr " "
  | SetPanPositionOffset offset => bstr "PO" ++ str_int offset ++ bstr " "
  | SetTiltPositionOffset offset => bstr "TO" ++ str_int offset ++ bstr " "
  | SetPanSpeedOffset offset => bstr "PD" ++ str_int offset ++ bstr " "
  | SetTiltSpeedOffset offset => bstr "TD" ++ str_int offset ++ bstr " "
  end.

(** The integers each of them writes into its frame, in the order they
    are written. *)
Definition arguments (m : mutation) : list Z :=
  match m with
  | SetPanPosition n | SetTiltPosition n | SetPanSpeed n | SetTiltSpeed n
  | SetPanPositionOffset n | SetTiltPositionOffset n
  | SetPanSpeedOffset n | SetTiltSpeedOffset n => [n]
  | SetPositionAndSpeed a b c d => [a; b; c; d]
  end.

(** Whether [str] writes them all. *)
Definition writable `{IntSettings} (m : mutation) : bool :=
  forallb within_digits (arguments m).

(** The text each of them puts before the reply in its warning. *)
Definition label_of (m : mutation) : text :=
  match m with
  | SetPanPosition _ => ustr "Pan position response: "
  | SetTiltPosition _ => ustr "Tilt position response: "
  | SetPanSpeed _ => ustr "Pan speed response: "
  | SetTiltSpeed _ => ustr "Tilt speed response: "
  | SetPositionAndSpeed _ _ _ _ => ustr "Set position and speed response: "
  | SetPanPositionOffset _ => ustr "Pan position offset response: "
  | SetTiltPositionOffset _ => ustr "Tilt position offset response: "
  | SetPanSpeedOffset _ => ustr "Pan speed offset response: "
  | SetTiltSpeedOffset _ => ustr "Tilt speed offset response: "
  end.

(** ** Readings of the documentation, to compare the code with *)

(** The reply to an echo toggle is cut by the echo state held before
    the toggle. *)
Definition cut_by_old_echo `{UnicodeCase} (on strip_echo : bool) (st : PTU)
  : Prop :=
  forall response,
    utf8_decode (next_line (serial st)) = Some response ->
    fst (send (PyBytes (toggle on)) strip_echo st)
    = Ok (strip_reply (strip_echo && echo st) (toggle on) response).


(** The echo state changes only when the reply read for the command
    holds the acknowledgment [*]. *)
Definition echo_changes_on_ack_only {A} (operation : M A) (st : PTU)
  : Prop :=
  echo (snd (operation st)) <> echo st ->
  exists response,
    utf8_decode (next_line (serial st)) = Some response
    /\ In (chr "*") response.

(** A candidate whose last character is the space passes the check of
    [send]. *)
Definition last_is_space (c : candidate) : bool :=
  match c with
  | PyStr s | PyBytes s =>
      match rev s with
      | x :: _ => (x =? chr " ")%N
      | [] => false
      end
  | PyByteArray _ => false
  end.

Definition space_terminated_passes `{UnicodeCase} (c : candidate) : Prop :=
  last_is_space c = true -> is_ok (encode_command c) = true.

(** ** The rest of the class *)

Definition with_controlMode (m : mode) (s : PTU) : PTU :=
  mkPTU (serial s) (echo s) (panResolution s) (tiltResolution s)
        (minPan s) (maxPan s) (minTilt s) (maxTilt s) (maxPanSpeed s)
        (maxTiltSpeed s) m (warnings s).

(** *** [int(s)] of a [str] *)

(** The [ValueError] of [int] for what is no numeral; the text is cut
    before the literal that the interpreter appends. *)
Definition invalid_literal : exn :=
  ValueError "invalid literal for int() with base 10".

(** The [ValueError] of [int] for a numeral of [count] digits, above the
    limit. *)
Definition too_many_digits `{IntSettings} (count : N) : exn :=
  ValueError ("Exceeds the limit (" ++ show_count max_str_digits
              ++ " digits) for integer string conversion: value has "
              ++ show_count count
              ++ " digits; use sys.set_int_max_str_digits() to increase"
              ++ " the limit")%string.

(** Before it is read, a space above ASCII becomes a space and a digit
    above ASCII the ASCII digit; any other character from 127 on is
    refused. *)
Definition int_char `{IntSettings} (c : N) : option N :=
  if (c <? 127)%N then Some c
  else if (c =? 127)%N then None
  else if is_space c then Some (chr " ")
  else option_map (N.add 48) (decimal_value c).

Fixpoint int_chars `{IntSettings} (s : text) : option text :=
  match s with
  | [] => Some []
  | c :: r =>
      match int_char c, int_chars r with
      | Some x, Some y => Some (x :: y)
      | _, _ => None
      end
  end.

(** The spaces skipped around the numeral. *)
Definition int_space (c : N) : bool :=
  ((9 <=? c) && (c <=? 13) || (c =? 32))%N.

Fixpoint skip_spaces (s : text) : text :=
  match s with
  | c :: r => if int_space c then skip_spaces r else s
  | [] => []
  end.

Definition digit_of (c : N) : option N :=
  if ((48 <=? c) && (c <=? 57))%N then Some (c - 48)%N else None.

(** Digits, with single underscores between them: the value read so
    far, the number of digits, and what follows the numeral. *)
Fixpoint scan_digits (s : text) (after_underscore : bool) (acc count : N)
  : option (N * N * text) :=
  match s with
  | [] => if after_underscore then None else Some (acc, count, [])
  | c :: r =>
      if (c =? chr "_")%N
      then (if after_underscore then None else scan_digits r true acc count)
      else match digit_of c with
           | Some d => scan_digits r false (acc * 10 + d)%N (count + 1)%N
           | None =>
               if after_underscore then None else Some (acc, count, s)
           end
  end.

(** [int(s)] in base ten, as the interpreters read it from 3.6 on
    (underscores between digits). *)
Definition py_int `{IntSettings} (s : text) : result Z :=
  match int_chars s with
  | None => Raise invalid_literal
  | Some t =>
      let t := skip_spaces t in
      let '(negative, t) :=
        match t with
        | c :: r =>
            if (c =? chr "+")%N then (false, r)
            else if (c =? chr "-")%N then (true, r)
            else (false, t)
        | [] => (false, [])
        end in
      match t with
      | [] => Raise invalid_literal
      | c :: _ =>
          if (c =? chr "_")%N then Raise invalid_literal
          else
            match scan_digits t false 0 0 with
            | None => Raise invalid_literal
            | Some (value, count, rest) =>
                if (count =? 0)%N then Raise invalid_literal
                else if (0 <? max_str_digits)%N
                        && (max_str_digits <? count)%N
                then Raise (too_many_digits count)
                else match skip_spaces rest with
                     | [] => Ok (if negative then (- Z.of_N value)%Z
                                 else Z.of_N value)
                     | _ => Raise invalid_literal
                     end
            end
      end
  end.

(** [s[k:]] *)
Definition py_from {A} (s : list A) (k : Z) : list A :=
  py_slice s k (len s).

(** *** Initial state, continued *)

(** The [RuntimeError] carries a second argument, the reply, which
    [exn] has no room for. *)
Definition _determine_echo_state : M bool :=
  __send_command (PyBytes (bstr "E "));;
  response <- __get_response;;
  if seq_eqb response (ustr "E * Echoing ON" ++ CRLF) then ret true
  else if seq_eqb response (ustr "* Echoing OFF" ++ CRLF) then ret false
  else raise (RuntimeError
                "When queried for echo state, device gave unexpected reply:").

Definition _determine_min_pan `{UnicodeCase} `{IntSettings} : M Z :=
  response <- send (PyBytes (bstr "PN ")) true;;
  lift (py_int (py_from response 26)).

Definition _determine_max_pan `{UnicodeCase} `{IntSettings} : M Z :=
  response <- send (PyBytes (bstr "PX ")) true;;
  lift (py_int (py_from response 26)).

Definition _determine_min_tilt `{UnicodeCase} `{IntSettings} : M Z :=
  response <- send (PyBytes (bstr "TN ")) true;;
  lift (py_int (py_from response 27)).

Definition _determine_max_tilt `{UnicodeCase} `{IntSettings} : M Z :=
  response <- send (PyBytes (bstr "TX ")) true;;
  lift (py_int (py_from response 27)).

Definition _determine_max_pan_speed `{UnicodeCase} `{IntSettings} : M Z :=
  response <- send (PyBytes (bstr "PU ")) true;;
  token <- lift (py_getitem (split response) 5);;
  lift (py_int token).

Definition _determine_max_tilt_speed `{UnicodeCase} `{IntSettings} : M Z :=
  response <- send (PyBytes (bstr "TU ")) true;;
  token <- lift (py_getitem (split response) 5);;
  lift (py_int token).

(** *** The setter of [controlMode] *)

Definition mode_must_be : string :=
  ("Mode must be " ++ double_quote ++ "pos" ++ double_quote ++ " or "
   ++ double_quote ++ "vel" ++ double_quote)%string.

(** [self.__controlMode = m] *)
Definition set_controlMode (m : mode) : M unit :=
  fun s => (Ok tt, with_controlMode m s).

Definition controlMode_setter `{UnicodeCase} (mode : pyval) : M unit :=
  match mode with
  | VBytes _ => raise (TypeError mode_must_be)
  | VStr mode =>
      if seq_eqb (str_lower mode) (ustr "pos")
      then (__send_command (PyBytes (bstr "CI "));;
            __get_response;;
            set_controlMode mode_pos)
      else if seq_eqb (str_lower mode) (ustr "vel")
      then (__send_command (PyBytes (bstr "CV "));;
            __get_response;;
            set_controlMode mode_vel)
      else raise (ValueError mode_must_be)
  end.

(** *** Pan and tilt together *)

Definition setPosition `{UnicodeCase} `{IntSettings} (pan tilt : Z)
  (blocking : bool) : M bool :=
  resp1 <- setPanPosition pan false;;
  resp2 <- setTiltPosition tilt blocking;;
  ret (resp1 && resp2).

Definition setSpeed `{UnicodeCase} `{IntSettings} (pan tilt : Z)
  (blocking : bool) : M bool :=
  resp1 <- setPanSpeed pan false;;
  resp2 <- setTiltSpeed tilt blocking;;
  ret (resp1 && resp2).

Definition setPositionOffset `{UnicodeCase} `{IntSettings} (pan tilt : Z)
  (blocking : bool) : M bool :=
  resp1 <- setPanPositionOffset pan false;;
  resp2 <- setTiltPositionOffset tilt blocking;;
  ret (resp1 && resp2).

Definition setSpeedOffset `{UnicodeCase} `{IntSettings} (pan tilt : Z)
  (blocking : bool) : M bool :=
  resp1 <- setPanSpeedOffset pan false;;
  resp2 <- setTiltSpeedOffset tilt blocking;;
  ret (resp1 && resp2).

(** *** Current and target values *)

Definition getPanPosition `{UnicodeCase} `{IntSettings} : M Z :=
  resp <- send (PyBytes (bstr "PP ")) true;;
  lift (py_int (py_from resp 26)).

Definition getTiltPosition `{UnicodeCase} `{IntSettings} : M Z :=
  resp <- send (PyBytes (bstr "TP ")) true;;
  lift (py_int (py_from resp 27)).

Definition getPosition `{UnicodeCase} `{IntSettings} : M (Z * Z) :=
  pan <- getPanPosition;;
  tilt <- getTiltPosition;;
  ret (pan, tilt).

Definition getPanSpeed `{UnicodeCase} `{IntSettings} : M Z :=
  resp <- send (PyBytes (bstr "PD ")) true;;
  lift (py_int (py_from resp 26)).

Definition getTiltSpeed `{UnicodeCase} `{IntSettings} : M Z :=
  resp <- send (PyBytes (bstr "TD ")) true;;
  lift (py_int (py_from resp 27)).

Definition getSpeed `{UnicodeCase} `{IntSettings} : M (Z * Z) :=
  pan <- getPanSpeed;;
  tilt <- getTiltSpeed;;
  ret (pan, tilt).

Definition getTargetPanPosition `{UnicodeCase} `{IntSettings} : M Z :=
  resp <- send (PyBytes (bstr "PO ")) true;;
  lift (py_int (py_from resp 25)).

Definition getTargetTiltPosition `{UnicodeCase} `{IntSettings} : M Z :=
  resp <- send (PyBytes (bstr "TO ")) true;;
  lift (py_int (py_from resp 26)).

Definition getTargetPosition `{UnicodeCase} `{IntSettings} : M (Z * Z) :=
  pan <- getTargetPanPosition;;
  tilt <- getTargetTiltPosition;;
  ret (pan, tilt).

Definition getTargetPanSpeed `{UnicodeCase} `{IntSettings} : M Z :=
  resp <- send (PyBytes (bstr "PS ")) true;;
  token <- lift (py_getitem (split resp) 5);;
  lift (py_int token).

Definition getTargetTiltSpeed `{UnicodeCase} `{IntSettings} : M Z :=
  resp <- send (PyBytes (bstr "TS ")) true;;
  token <- lift (py_getitem (split resp) 5);;
  lift (py_int token).

Definition getTargetSpeed `{UnicodeCase} `{IntSettings} : M (Z * Z) :=
  pan <- getTargetPanSpeed;;
  tilt <- getTargetTiltSpeed;;
  ret (pan, tilt).

(** *** Settings to run [int] with *)

(** No digit above ASCII, and the digit limit of recent interpreters. *)
#[export, refine] Instance plain_int : IntSettings := {
  decimal_value := fun _ => None;
  max_str_digits := 4300
}.
Proof.
  - intros c d Hd; discriminate Hd.
  - right. lia.
Defined.

(** ** What the replies come to, to state the rest *)

(** The payload of a decoded line, terminator apart: without its first
    [len(frame)] characters when the echo state is on. *)
Definition echo_cut (e : bool) (frame : bytes) (line : text) : text :=
  if e then skipn (length frame) line else line.

(** What a position or speed command makes of a payload, from the state
    [st] reached once the replies are read. *)
Definition acknowledged (m : mutation) (payload : text) (st : PTU)
  : result bool * PTU :=
  match payload with
  | [] => (Raise IndexError, st)
  | c :: _ =>
      (Ok (c =? chr "*")%N,
       if (c =? chr "*")%N then st
       else with_warnings
              (warnings st ++ [(RuntimeWarning, label_of m ++ payload)]) st)
  end.

(** The port once [frames] were written and the device is left with
    [more] to say. *)
Definition written (frames : list bytes) (more : list bytes) (st : PTU)
  : PTU :=
  with_serial (mkSerial [] (tx (serial st) ++ frames) more) st.

(** The commands for both axes, to speak of them all at once. *)
Inductive pair_op :=
| SetPosition
| SetSpeed
| SetPositionOffset
| SetSpeedOffset.

Definition call_pair `{UnicodeCase} `{IntSettings} (op : pair_op)
  (pan tilt : Z) (blocking : bool) : M bool :=
  match op with
  | SetPosition => setPosition pan tilt blocking
  | SetSpeed => setSpeed pan tilt blocking
  | SetPositionOffset => setPositionOffset pan tilt blocking
  | SetSpeedOffset => setSpeedOffset pan tilt blocking
  end.

Definition pan_part (op : pair_op) (pan : Z) : mutation :=
  match op with
  | SetPosition => SetPanPosition pan
  | SetSpeed => SetPanSpeed pan
  | SetPositionOffset => SetPanPositionOffset pan
  | SetSpeedOffset => SetPanSpeedOffset pan
  end.

Definition tilt_part (op : pair_op) (tilt : Z) : mutation :=
  match op with
  | SetPosition => SetTiltPosition tilt
  | SetSpeed => SetTiltSpeed tilt
  | SetPositionOffset => SetTiltPositionOffset tilt
  | SetSpeedOffset => SetTiltSpeedOffset tilt
  end.

(** A byte below the lower-case letters. *)
Definition below_a (c : N) : bool := (c <? 97)%N.


(** The queries that return one integer, to speak of them all at once. *)
Inductive query :=
| DetermineMinPan
| DetermineMaxPan
| DetermineMinTilt
| DetermineMaxTilt
| DetermineMaxPanSpeed
| DetermineMaxTiltSpeed
| GetPanPosition
| GetTiltPosition
| GetPanSpeed
| GetTiltSpeed
| GetTargetPanPosition
| GetTargetTiltPosition
| GetTargetPanSpeed
| GetTargetTiltSpeed.

Definition ask `{UnicodeCase} `{IntSettings} (q : query) : M Z :=
  match q with
  | DetermineMinPan => _determine_min_pan
  | DetermineMaxPan => _determine_max_pan
  | DetermineMinTilt => _determine_min_tilt
  | DetermineMaxTilt => _determine_max_tilt
  | DetermineMaxPanSpeed => _determine_max_pan_speed
  | DetermineMaxTiltSpeed => _determine_max_tilt_speed
  | GetPanPosition => getPanPosition
  | GetTiltPosition => getTiltPosition
  | GetPanSpeed => getPanSpeed
  | GetTiltSpeed => getTiltSpeed
  | GetTargetPanPosition => getTargetPanPosition
  | GetTargetTiltPosition => getTargetTiltPosition
  | GetTargetPanSpeed => getTargetPanSpeed
  | GetTargetTiltSpeed => getTargetTiltSpeed
  end.

(** The frame each of them transmits. *)
Definition query_frame (q : query) : bytes :=
  match q with
  | DetermineMinPan => bstr "PN "
  | DetermineMaxPan => bstr "PX "
  | DetermineMinTilt => bstr "TN "
  | DetermineMaxTilt => bstr "TX "
  | DetermineMaxPanSpeed => bstr "PU "
  | DetermineMaxTiltSpeed => bstr "TU "
  | GetPanPosition => bstr "PP "
  | GetTiltPosition => bstr "TP "
  | GetPanSpeed => bstr "PD "
  | GetTiltSpeed => bstr "TD "
  | GetTargetPanPosition => bstr "PO "
  | GetTargetTiltPosition => bstr "TO "
  | GetTargetPanSpeed => bstr "PS "
  | GetTargetTiltSpeed => bstr "TS "
  end.

(** Where each of them finds the numeral: from a fixed offset to the
    end of the payload, or in the sixth word. *)
Definition query_offset (q : query) : option nat :=
  match q with
  | DetermineMinPan | DetermineMaxPan => Some 26%nat
  | DetermineMinTilt | DetermineMaxTilt => Some 27%nat
  | GetPanPosition | GetPanSpeed => Some 26%nat
  | GetTiltPosition | GetTiltSpeed => Some 27%nat
  | GetTargetPanPosition => Some 25%nat
  | GetTargetTiltPosition => Some 26%nat
  | DetermineMaxPanSpeed | DetermineMaxTiltSpeed
  | GetTargetPanSpeed | GetTargetTiltSpeed => None
  end.

(** The queries for both axes. *)
Inductive pair_query :=
| GetPosition
| GetSpeed
| GetTargetPosition
| GetTargetSpeed.

Definition ask_pair `{UnicodeCase} `{IntSettings} (q : pair_query)
  : M (Z * Z) :=
  match q with
  | GetPosition => getPosition
  | GetSpeed => getSpeed
  | GetTargetPosition => getTargetPosition
  | GetTargetSpeed => getTargetSpeed
  end.

Definition pan_query (q : pair_query) : query :=
  match q with
  | GetPosition => GetPanPosition
  | GetSpeed => GetPanSpeed
  | GetTargetPosition => GetTargetPanPosition
  | GetTargetSpeed => GetTargetPanSpeed
  end.

Definition tilt_query (q : pair_query) : query :=
  match q with
  | GetPosition => GetTiltPosition
  | GetSpeed => GetTiltSpeed
  | GetTargetPosition => GetTargetTiltPosition
  | GetTargetSpeed => GetTargetTiltSpeed
  end.

(** What a query extracts from a payload: the text from its offset on,
    or the sixth word. *)
Definition numeral_of (q : query) (payload : text) : result text :=
  match query_offset q with
  | Some k => Ok (skipn k payload)
  | None => py_getitem (split payload) 5
  end.


(** The frame and the name of a control mode. *)
Definition mode_frame (m : mode) : bytes :=
  match m with
  | mode_pos => bstr "CI "
  | mode_vel => bstr "CV "
  end.

Definition mode_name (m : mode) : text :=
  match m with
  | mode_pos => ustr "pos"
  | mode_vel => ustr "vel"
  end.

(** The two replies [_determine_echo_state] knows. *)
Definition echoing_on : text := ustr "E * Echoing ON" ++ CRLF.

Definition echoing_off : text := ustr "* Echoing OFF" ++ CRLF.

(** * Proofs *)

(** ** Sequences *)

Lemma seq_eqb_eq (a b : list N) : seq_eqb a b = true <-> a = b.
Proof.
  unfold seq_eqb. destruct (list_eq_dec N.eq_dec a b); split; congruence.
Qed.

Lemma py_in_bytes_among_str (b : bytes) (l : list text) :
  py_in (VBytes b) (map VStr l) = false.
Proof.
  unfold py_in. induction l as [| x l IH]; simpl; [reflexivity | exact IH].
Qed.

Lemma len_app {A} (a b : list A) : len (a ++ b) = (len a + len b)%Z.
Proof. unfold len. rewrite length_app. lia. Qed.



Lemma py_getitem_last {A} (s : list A) (d : A) :
  s <> [] -> py_getitem s (-1) = Ok (last s d).
Proof.
  intros Hs. destruct (exists_last Hs) as [s' [x ->]].
  unfold py_getitem. change (-1 <? 0)%Z with true. cbv iota zeta.
  rewrite len_app. change (len [x]) with 1%Z.
  assert (0 <= len s')%Z by (unfold len; lia).
  destruct (Z.ltb_spec (len s' + 1 + -1) 0); [lia |].
  replace (Z.to_nat (len s' + 1 + -1)) with (length s')
    by (unfold len; lia).
  rewrite nth_error_app2 by apply Nat.le_refl.
  rewrite Nat.sub_diag. simpl.
  rewrite last_last. reflexivity.
Qed.

Lemma py_getitem_0 {A} (c : A) (s : list A) : py_getitem (c :: s) 0 = Ok c.
Proof. reflexivity. Qed.

(** ** [send], case by case *)

Section Send.
Context `{U : UnicodeCase}.

(** A candidate the head of [send] rejects: nothing else happens. *)
Lemma send_rejected (command : candidate) (e : exn) (se : bool) (st : PTU) :
  encode_command command = Raise e ->
  send command se st = (Raise e, st).
Proof.
  intros He. unfold send, bind, lift. rewrite He. reflexivity.
Qed.

(** Bytes are waiting: they are read, and reporting them raises. *)
Lemma send_unsolicited (command : candidate) (frame : bytes) (se : bool)
      (st : PTU) :
  encode_command command = Ok frame ->
  rx (serial st) <> [] ->
  send command se st
  = (Raise AttributeError,
     with_serial (mkSerial [] (tx (serial st)) (device (serial st))) st).
Proof.
  intros He Hrx. unfold send, bind, lift. rewrite He.
  unfold limit_mnemonics, execution_mnemonics, monitor_mnemonics.
  rewrite !py_in_bytes_among_str.
  destruct st as [[r t d] e a b c1 c2 c3 c4 c5 c6 c7 w]. simpl in Hrx.
  unfold ret, __send_command, bind, ret, in_waiting. simpl.
  destruct r as [| x r]; [congruence |].
  replace (len (x :: r) >? 0)%Z with true
    by (symmetry; apply Z.gtb_lt; unfold len; simpl length; lia).
  unfold serial_read, __handle_async_input, bind, lift.
  cbn [serial rx tx device]. unfold len. rewrite Nat2Z.id, skipn_all.
  reflexivity.
Qed.

(** The port is idle and the line read decodes: the round trip. *)
Lemma send_round_trip (command : candidate) (frame : bytes) (se : bool)
      (st : PTU) (response : text) :
  encode_command command = Ok frame ->
  rx (serial st) = [] ->
  utf8_decode (next_line (serial st)) = Some response ->
  send command se st
  = (Ok (strip_reply (se && toggled frame (echo st)) frame response),
     with_echo (toggled frame (echo st))
               (with_serial (after_round_trip frame (serial st)) st)).
Proof.
  intros He Hrx Hdec. unfold send, bind, lift. rewrite He.
  unfold limit_mnemonics, execution_mnemonics, monitor_mnemonics.
  rewrite !py_in_bytes_among_str.
  destruct st as [[r t d] e a b c1 c2 c3 c4 c5 c6 c7 w].
  simpl in Hrx. subst r.
  unfold next_line in Hdec. simpl in Hdec.
  unfold ret, __send_command, bind, ret, in_waiting, serial_write,
    __get_response, bind, lift, serial_read_until. simpl.
  destruct (read_until _TERM (hd [] d)) as [line rest] eqn:Hline.
  simpl in Hdec. rewrite Hdec. simpl.
  unfold toggled, py_eq, after_round_trip, strip_reply, get_echo, set_echo,
    with_echo, with_serial. simpl. rewrite Hline. simpl.
  destruct (seq_eqb frame (bstr "EE ")); simpl.
  - rewrite andb_true_r. destruct se; reflexivity.
  - destruct (seq_eqb frame (bstr "ED ")); simpl.
    + rewrite andb_false_r. reflexivity.
    + destruct (se && e); reflexivity.
Qed.

(** The port is idle and the line read is not UTF-8: the frame went
    out, the line is consumed, the echo state is as it was. *)
Lemma send_undecodable (command : candidate) (frame : bytes) (se : bool)
      (st : PTU) :
  encode_command command = Ok frame ->
  rx (serial st) = [] ->
  utf8_decode (next_line (serial st)) = None ->
  send command se st
  = (Raise UnicodeDecodeError,
     with_serial (after_round_trip frame (serial st)) st).
Proof.
  intros He Hrx Hdec. unfold send, bind, lift. rewrite He.
  unfold limit_mnemonics, execution_mnemonics, monitor_mnemonics.
  rewrite !py_in_bytes_among_str.
  destruct st as [[r t d] e a b c1 c2 c3 c4 c5 c6 c7 w].
  simpl in Hrx. subst r.
  unfold next_line in Hdec. simpl in Hdec.
  unfold ret, __send_command, bind, ret, in_waiting, serial_write,
    __get_response, bind, lift, serial_read_until. simpl.
  destruct (read_until _TERM (hd [] d)) as [line rest] eqn:Hline.
  simpl in Hdec. rewrite Hdec. simpl.
  unfold after_round_trip, with_serial. simpl. rewrite Hline. reflexivity.
Qed.

End Send.

(** ** Case mapping and UTF-8 *)

Lemma ascii_upper_space (c : N) : ascii_upper c = 32%N <-> c = 32%N.
Proof.
  unfold ascii_upper.
  destruct (N.leb_spec 97 c); destruct (N.leb_spec c 122); simpl; lia.
Qed.

Lemma ascii_upper_high (c : N) : (128 <= c)%N -> ascii_upper c = c.
Proof.
  intros Hc. unfold ascii_upper.
  destruct (N.leb_spec 97 c); destruct (N.leb_spec c 122); simpl;
    try reflexivity; lia.
Qed.

Lemma last_cons {A} (x : A) (l : list A) (d : A) :
  last (x :: l) d = match l with [] => x | _ => last l d end.
Proof. destruct l; reflexivity. Qed.

Lemma last_app_nonempty {A} (l1 l2 : list A) (d : A) :
  l2 <> [] -> last (l1 ++ l2) d = last l2 d.
Proof.
  intros H. destruct (exists_last H) as [l' [x ->]].
  rewrite app_assoc, !last_last. reflexivity.
Qed.

Lemma last_In {A} (l : list A) (d : A) : l <> [] -> In (last l d) l.
Proof.
  intros H. destruct (exists_last H) as [l' [x ->]].
  rewrite last_last. apply in_or_app. right. left. reflexivity.
Qed.

Lemma bytes_upper_last (b : bytes) :
  last (bytes_upper b) 0%N = 32%N <-> last b 0%N = 32%N.
Proof.
  unfold bytes_upper.
  destruct b as [| x b] using rev_ind; [simpl; tauto |].
  rewrite map_app. simpl. rewrite !last_last. apply ascii_upper_space.
Qed.

Lemma bytes_upper_nil (b : bytes) : bytes_upper b = [] <-> b = [].
Proof.
  unfold bytes_upper. destruct b; simpl; split; congruence.
Qed.

Section Upper.
Context `{U : UnicodeCase}.

Lemma upper_char_nonempty (c : N) : upper_char c <> [].
Proof.
  unfold upper_char. destruct (is_ascii c); [discriminate |].
  apply upper_full_nonempty.
Qed.

Lemma upper_char_last (c : N) :
  last (upper_char c) 0%N = 32%N <-> c = 32%N.
Proof.
  unfold upper_char, is_ascii. destruct (N.ltb_spec c 128) as [Hc | Hc].
  - simpl. apply ascii_upper_space.
  - split; [| lia]. intros Hl. exfalso.
    apply (upper_full_nospace Hc). rewrite <- Hl.
    apply last_In, upper_full_nonempty.
Qed.

Lemma str_upper_nil (s : text) : str_upper s = [] <-> s = [].
Proof.
  unfold str_upper. destruct s as [| c s]; simpl; [tauto |].
  split; [| discriminate]. intros H. apply app_eq_nil in H.
  destruct H as [H _]. exfalso. exact (upper_char_nonempty c H).
Qed.

Lemma str_upper_last (s : text) :
  last (str_upper s) 0%N = 32%N <-> last s 0%N = 32%N.
Proof.
  destruct s as [| c s] using rev_ind; [simpl; tauto |].
  unfold str_upper. rewrite flat_map_app. simpl. rewrite app_nil_r.
  rewrite last_app_nonempty by apply upper_char_nonempty.
  rewrite last_last. apply upper_char_last.
Qed.

End Upper.

Lemma utf8_encode_ascii (s : text) :
  forallb is_ascii s = true -> utf8_encode s = Some s.
Proof.
  induction s as [| c s IH]; simpl; [reflexivity |].
  intros H. apply andb_true_iff in H. destruct H as [Hc Hs].
  unfold utf8_encode_char. unfold is_ascii in Hc. rewrite Hc.
  rewrite (IH Hs). reflexivity.
Qed.

Lemma string_of_uint_ascii (u : Decimal.uint) :
  forallb is_ascii (ustr (NilEmpty.string_of_uint u)) = true.
Proof.
  induction u; simpl; try reflexivity; exact IHu.
Qed.

Lemma str_int_ascii (n : Z) : forallb is_ascii (str_int n) = true.
Proof.
  unfold str_int, NilZero.string_of_int, NilZero.string_of_uint.
  destruct (Z.to_int n) as [u | u].
  - destruct u; try apply string_of_uint_ascii; reflexivity.
  - destruct u; try (simpl; apply string_of_uint_ascii); reflexivity.
Qed.

Lemma int_arg_ok `{I : IntSettings} (n : Z) (st : PTU) :
  within_digits n = true -> int_arg n st = (Ok (str_int n), st).
Proof.
  intros Hn. unfold int_arg, bind, lift, py_str. rewrite Hn.
  rewrite utf8_encode_ascii by apply str_int_ascii. reflexivity.
Qed.

Lemma int_arg_too_long `{I : IntSettings} (n : Z) (st : PTU) :
  within_digits n = false -> int_arg n st = (Raise too_long_to_write, st).
Proof.
  intros Hn. unfold int_arg, bind, lift, py_str. rewrite Hn. reflexivity.
Qed.

(** *** Decoding, one character at a time *)

Lemma option_map_cons_some {A} (c : A) (o : option (list A)) (d : list A) :
  option_map (cons c) o = Some d -> exists d', o = Some d' /\ d = c :: d'.
Proof.
  destruct o as [d' |]; simpl; [| discriminate].
  intros [= <-]. exists d'. split; reflexivity.
Qed.

Lemma is_cont_high (b : N) : is_cont b = true -> (128 <= b)%N.
Proof.
  unfold is_cont. intros H. apply andb_true_iff in H.
  destruct H as [H _]. apply N.leb_le in H. exact H.
Qed.

(** A decoded string starts with one character, read from one to four
    bytes; the character is a space exactly when the last of its bytes
    is. *)
Lemma utf8_decode_step (bs : bytes) (d : text) :
  utf8_decode bs = Some d ->
  bs <> [] ->
  exists pre c r d',
    bs = pre ++ r /\ d = c :: d' /\ pre <> []
    /\ (last pre 0%N = 32%N <-> c = 32%N)
    /\ utf8_decode r = Some d'.
Proof.
  intros H Hne. destruct bs as [| b0 r0]; [congruence |]. clear Hne.
  simpl in H.
  destruct (N.ltb_spec b0 128) as [H0 | H0].
  { apply option_map_cons_some in H. destruct H as [d' [Hr ->]].
    exists [b0], b0, r0, d'. simpl. repeat split; auto; discriminate. }
  destruct (N.ltb_spec b0 194) as [H1 | H1]; [discriminate |].
  destruct (N.ltb_spec b0 224) as [H2 | H2].
  { destruct r0 as [| b1 r1]; [discriminate |].
    destruct (is_cont b1) eqn:C1; [| discriminate].
    apply option_map_cons_some in H. destruct H as [d' [Hr ->]].
    apply is_cont_high in C1.
    exists [b0; b1], ((b0 - 192) * 64 + cont b1)%N, r1, d'. simpl.
    repeat split; auto; try discriminate; unfold cont; lia. }
  destruct (N.ltb_spec b0 240) as [H3 | H3].
  { destruct r0 as [| b1 [| b2 r2]]; try discriminate.
    destruct (is_cont b1 && is_cont b2
              && (negb (b0 =? 224)%N || (160 <=? b1)%N)
              && (negb (b0 =? 237)%N || (b1 <=? 159)%N)) eqn:C;
      [| discriminate].
    apply option_map_cons_some in H. destruct H as [d' [Hr ->]].
    rewrite !andb_true_iff in C. destruct C as [[[C1 C2] C3] _].
    apply is_cont_high in C1. apply is_cont_high in C2.
    assert (b0 = 224 -> 160 <= b1)%N.
    { intros ->. simpl in C3. apply N.leb_le. exact C3. }
    exists [b0; b1; b2],
      ((b0 - 224) * 4096 + cont b1 * 64 + cont b2)%N, r2, d'. simpl.
    repeat split; auto; try discriminate; unfold cont; lia. }
  destruct (N.ltb_spec b0 245) as [H4 | H4]; [| discriminate].
  destruct r0 as [| b1 [| b2 [| b3 r3]]]; try discriminate.
  destruct (is_cont b1 && is_cont b2 && is_cont b3
            && (negb (b0 =? 240)%N || (144 <=? b1)%N)
            && (negb (b0 =? 244)%N || (b1 <=? 143)%N)) eqn:C;
    [| discriminate].
  apply option_map_cons_some in H. destruct H as [d' [Hr ->]].
  rewrite !andb_true_iff in C. destruct C as [[[[C1 C2] C3] C4] _].
  apply is_cont_high in C1. apply is_cont_high in C2.
  apply is_cont_high in C3.
  assert (b0 = 240 -> 144 <= b1)%N.
  { intros ->. simpl in C4. apply N.leb_le. exact C4. }
  exists [b0; b1; b2; b3],
    ((b0 - 240) * 262144 + cont b1 * 4096 + cont b2 * 64 + cont b3)%N,
    r3, d'. simpl.
  repeat split; auto; try discriminate; unfold cont; lia.
Qed.

Lemma utf8_decode_last (bs : bytes) (d : text) :
  utf8_decode bs = Some d ->
  (d = [] <-> bs = []) /\ (last d 0%N = 32%N <-> last bs 0%N = 32%N).
Proof.
  remember (length bs) as n eqn:Hn. revert bs d Hn.
  induction n as [n IH] using (well_founded_induction lt_wf).
  intros bs d Hn H.
  destruct bs as [| b0 r0].
  - simpl in H. injection H as <-. simpl. tauto.
  - destruct (@utf8_decode_step (b0 :: r0) d H)
      as [pre [c [r [d' (Hbs & -> & Hpre & Hsp & Hr)]]]]; [discriminate |].
    split; [split; discriminate |].
    assert (Hlen : (length r < n)%nat).
    { subst n. rewrite Hbs, length_app.
      destruct pre; [congruence | simpl; lia]. }
    destruct (IH (length r) Hlen r d' eq_refl Hr) as [Hnil Hlast].
    rewrite Hbs. destruct r as [| x r].
    + assert (d' = []) as -> by (apply Hnil; reflexivity).
      rewrite app_nil_r. simpl. tauto.
    + rewrite last_app_nonempty by discriminate.
      rewrite last_cons. destruct d' as [| y d'].
      * exfalso. assert (x :: r = []) by (apply Hnil; reflexivity).
        discriminate.
      * exact Hlast.
Qed.

(** *** [bytes.upper] does not change what decodes *)

Lemma ascii_upper_cases (c : N) :
  (97 <= c <= 122 /\ ascii_upper c = c - 32)%N
  \/ ((c < 97 \/ 122 < c) /\ ascii_upper c = c)%N.
Proof.
  unfold ascii_upper.
  destruct (N.leb_spec 97 c); destruct (N.leb_spec c 122); simpl;
    [left | right | right | right]; split; auto; lia.
Qed.

Lemma upper_ltb (t c : N) :
  (123 <= t)%N -> (ascii_upper c <? t)%N = (c <? t)%N.
Proof.
  intros Ht. destruct (ascii_upper_cases c) as [[Hc ->] | [Hc ->]];
    [| reflexivity].
  destruct (N.ltb_spec (c - 32) t); destruct (N.ltb_spec c t); lia.
Qed.

Lemma upper_leb_r (t c : N) :
  (122 <= t)%N -> (ascii_upper c <=? t)%N = (c <=? t)%N.
Proof.
  intros Ht. destruct (ascii_upper_cases c) as [[Hc ->] | [Hc ->]];
    [| reflexivity].
  destruct (N.leb_spec (c - 32) t); destruct (N.leb_spec c t); lia.
Qed.

Lemma upper_leb_l (t c : N) :
  (123 <= t)%N -> (t <=? ascii_upper c)%N = (t <=? c)%N.
Proof.
  intros Ht. destruct (ascii_upper_cases c) as [[Hc ->] | [Hc ->]];
    [| reflexivity].
  destruct (N.leb_spec t (c - 32)); destruct (N.leb_spec t c); lia.
Qed.

Lemma is_cont_upper (c : N) : is_cont (ascii_upper c) = is_cont c.
Proof.
  unfold is_cont. rewrite upper_leb_l, upper_leb_r by lia. reflexivity.
Qed.

Lemma is_cont_keeps (c : N) : is_cont c = true -> ascii_upper c = c.
Proof. intros H. apply ascii_upper_high, is_cont_high, H. Qed.

Lemma utf8_decode_upper (bs : bytes) :
  utf8_decode (bytes_upper bs)
  = option_map (map ascii_upper) (utf8_decode bs).
Proof.
  remember (length bs) as n eqn:Hn. revert bs Hn.
  induction n as [n IH] using (well_founded_induction lt_wf).
  intros bs Hn. destruct bs as [| b0 r0]; [reflexivity |].
  assert (Hrec : forall r, (length r < n)%nat ->
            utf8_decode (bytes_upper r)
            = option_map (map ascii_upper) (utf8_decode r)).
  { intros r Hr. exact (IH (length r) Hr r eq_refl). }
  unfold bytes_upper in *. cbn [map utf8_decode].
  rewrite (@upper_ltb 128 b0) by lia.
  destruct (N.ltb_spec b0 128) as [H0 | H0].
  { rewrite Hrec by (subst n; simpl; lia).
    destruct (utf8_decode r0); reflexivity. }
  rewrite (@ascii_upper_high b0 H0).
  destruct (N.ltb_spec b0 194) as [H1 | H1]; [reflexivity |].
  destruct (N.ltb_spec b0 224) as [H2 | H2].
  { destruct r0 as [| b1 r1]; [reflexivity |]. cbn [map utf8_decode].
    rewrite is_cont_upper. destruct (is_cont b1) eqn:C1; [| reflexivity].
    rewrite (@is_cont_keeps _ C1). apply is_cont_high in C1.
    rewrite Hrec by (subst n; simpl; lia).
    destruct (utf8_decode r1); [| reflexivity]. simpl.
    rewrite ascii_upper_high by (unfold cont; lia). reflexivity. }
  destruct (N.ltb_spec b0 240) as [H3 | H3].
  { destruct r0 as [| b1 [| b2 r2]]; try reflexivity. cbn [map utf8_decode].
    rewrite !is_cont_upper, (@upper_leb_l 160 b1), (@upper_leb_r 159 b1)
      by lia.
    destruct (is_cont b1 && is_cont b2
              && (negb (b0 =? 224)%N || (160 <=? b1)%N)
              && (negb (b0 =? 237)%N || (b1 <=? 159)%N)) eqn:C;
      [| reflexivity].
    rewrite !andb_true_iff in C. destruct C as [[[C1 C2] C3] _].
    rewrite (@is_cont_keeps _ C1), (@is_cont_keeps _ C2).
    apply is_cont_high in C1. apply is_cont_high in C2.
    assert (b0 = 224 -> 160 <= b1)%N.
    { intros ->. simpl in C3. apply N.leb_le. exact C3. }
    rewrite Hrec by (subst n; simpl; lia).
    destruct (utf8_decode r2); [| reflexivity]. simpl.
    rewrite ascii_upper_high by (unfold cont; lia). reflexivity. }
  destruct (N.ltb_spec b0 245) as [H4 | H4]; [| reflexivity].
  destruct r0 as [| b1 [| b2 [| b3 r3]]]; try reflexivity. cbn [map utf8_decode].
  rewrite !is_cont_upper, (@upper_leb_l 144 b1), (@upper_leb_r 143 b1)
    by lia.
  destruct (is_cont b1 && is_cont b2 && is_cont b3
            && (negb (b0 =? 240)%N || (144 <=? b1)%N)
            && (negb (b0 =? 244)%N || (b1 <=? 143)%N)) eqn:C;
    [| reflexivity].
  rewrite !andb_true_iff in C. destruct C as [[[[C1 C2] C3] C4] _].
  rewrite (@is_cont_keeps _ C1), (@is_cont_keeps _ C2), (@is_cont_keeps _ C3).
  apply is_cont_high in C1. apply is_cont_high in C2.
  apply is_cont_high in C3.
  assert (b0 = 240 -> 144 <= b1)%N.
  { intros ->. simpl in C4. apply N.leb_le. exact C4. }
  rewrite Hrec by (subst n; simpl; lia).
  destruct (utf8_decode r3); [| reflexivity]. simpl.
  rewrite ascii_upper_high by (unfold cont; lia). reflexivity.
Qed.

(** ** The head of [send] *)

Section Encode.
Context `{U : UnicodeCase}.

Lemma encode_command_str (s : text) :
  s <> [] ->
  encode_command (PyStr s)
  = if (last s 0 =? 32)%N
    then of_option UnicodeEncodeError (utf8_encode (str_upper s))
    else Raise must_end_with_space.
Proof.
  intros Hs. unfold encode_command. cbn [upper].
  assert (Hu : str_upper s <> []) by (rewrite str_upper_nil; exact Hs).
  rewrite (@py_getitem_last _ _ 0%N Hu). cbn [rbind].
  change (chr " ") with 32%N.
  pose proof (str_upper_last s) as Hl.
  destruct (N.eqb_spec (last (str_upper s) 0%N) 32%N);
    destruct (N.eqb_spec (last s 0%N) 32%N); simpl; try reflexivity; tauto.
Qed.

Lemma encode_command_str_nil : encode_command (PyStr []) = Raise IndexError.
Proof. reflexivity. Qed.

Lemma encode_command_bytes (b : bytes) :
  b <> [] ->
  encode_command (PyBytes b)
  = match utf8_decode b with
    | None => Raise UnicodeDecodeError
    | Some _ => if (last b 0 =? 32)%N then Ok (bytes_upper b)
                else Raise must_end_with_space
    end.
Proof.
  intros Hb. unfold encode_command. cbn [upper].
  rewrite utf8_decode_upper.
  destruct (utf8_decode b) as [d |] eqn:Hd; [| reflexivity].
  cbn [option_map of_option rbind].
  destruct (@utf8_decode_last _ _ Hd) as [Hnil Hlast].
  assert (Hm : bytes_upper d <> []).
  { rewrite bytes_upper_nil. tauto. }
  unfold bytes_upper in Hm at 1.
  rewrite (@py_getitem_last _ _ 0%N Hm). cbn [rbind].
  change (chr " ") with 32%N.
  pose proof (bytes_upper_last d) as Hl. unfold bytes_upper in Hl at 1.
  destruct (N.eqb_spec (last (map ascii_upper d) 0%N) 32%N);
    destruct (N.eqb_spec (last b 0%N) 32%N); simpl; try reflexivity; tauto.
Qed.

Lemma encode_command_bytes_nil :
  encode_command (PyBytes []) = Raise IndexError.
Proof. reflexivity. Qed.

End Encode.

(** ** The setter of [echo], case by case *)

Lemma toggled_toggle (on e : bool) : toggled (toggle on) e = on.
Proof. destruct on; reflexivity. Qed.

Lemma echo_setter_round_trip (on : bool) (st : PTU) (response : text) :
  rx (serial st) = [] ->
  utf8_decode (next_line (serial st)) = Some response ->
  echo_setter on st
  = (Ok tt,
     with_echo on (with_serial (after_round_trip (toggle on) (serial st)) st)).
Proof.
  intros Hrx Hdec.
  destruct st as [[r t d] e a b c1 c2 c3 c4 c5 c6 c7 w].
  simpl in Hrx. subst r. unfold next_line in Hdec. simpl in Hdec.
  destruct (read_until _TERM (hd [] d)) as [line rest] eqn:Hline.
  simpl in Hdec.
  destruct on; unfold echo_setter, bind, __send_command, bind, ret,
    in_waiting, serial_write, __get_response, bind, lift,
    serial_read_until; simpl; rewrite Hline; simpl; rewrite Hdec; simpl;
    unfold set_echo, with_echo, with_serial, after_round_trip; simpl;
    rewrite Hline; reflexivity.
Qed.

Lemma echo_setter_undecodable (on : bool) (st : PTU) :
  rx (serial st) = [] ->
  utf8_decode (next_line (serial st)) = None ->
  echo_setter on st
  = (Raise UnicodeDecodeError,
     with_serial (after_round_trip (toggle on) (serial st)) st).
Proof.
  intros Hrx Hdec.
  destruct st as [[r t d] e a b c1 c2 c3 c4 c5 c6 c7 w].
  simpl in Hrx. subst r. unfold next_line in Hdec. simpl in Hdec.
  destruct (read_until _TERM (hd [] d)) as [line rest] eqn:Hline.
  simpl in Hdec.
  destruct on; unfold echo_setter, bind, __send_command, bind, ret,
    in_waiting, serial_write, __get_response, bind, lift,
    serial_read_until; simpl; rewrite Hline; simpl; rewrite Hdec; simpl;
    unfold with_serial, after_round_trip; simpl;
    rewrite Hline; reflexivity.
Qed.

Lemma echo_setter_unsolicited (on : bool) (st : PTU) :
  rx (serial st) <> [] ->
  echo_setter on st
  = (Raise AttributeError,
     with_serial (mkSerial [] (tx (serial st)) (device (serial st))) st).
Proof.
  intros Hrx.
  destruct st as [[r t d] e a b c1 c2 c3 c4 c5 c6 c7 w]. simpl in Hrx.
  destruct r as [| x r]; [congruence |].
  destruct on; unfold echo_setter, bind, __send_command, bind, ret,
    in_waiting; cbn [serial rx tx device];
    (replace (len (x :: r) >? 0)%Z with true
      by (symmetry; apply Z.gtb_lt; unfold len; simpl length; lia));
    unfold serial_read, __handle_async_input, bind, lift;
    cbn [serial rx tx device]; unfold len;
    rewrite Nat2Z.id, skipn_all; reflexivity.
Qed.

(** * The claims *)

(** ** Echo toggles (C1, C4) *)

(** C1, the code at the two toggles. [send] assigns the echo state
    after the reply was read and BEFORE the payload is cut, so the reply
    of a toggle is cut by the state the toggle sets and not by the one
    held when it was sent. With echo off, [EE ] answered by [*], a reply
    that carries no echo, loses the three leading characters all the
    same: the payload is empty, and of [* Echoing ON] it is
    [choing ON]. With echo on, [ED ] answered by the echoed frame and
    [*] keeps the echo: the payload is [ED *]. In both cases the reply
    is not cut by the echo state held before the toggle. *)
Theorem toggle_reply_cut_after_echo_assigned :
  send (H := ascii_case) (PyBytes (bstr "EE ")) true
       (session (idle_port [bstr "*" ++ _TERM]) false)
  = (Ok [], session (mkSerial [] [bstr "EE "] []) true)
  /\ send (H := ascii_case) (PyStr (ustr "ee ")) true
          (session (idle_port [bstr "* Echoing ON" ++ _TERM]) false)
     = (Ok (ustr "choing ON"), session (mkSerial [] [bstr "EE "] []) true)
  /\ send (H := ascii_case) (PyBytes (bstr "ED ")) true
          (session (idle_port [bstr "ED *" ++ _TERM]) true)
     = (Ok (ustr "ED *"), session (mkSerial [] [bstr "ED "] []) false)
  /\ ~ cut_by_old_echo (H := ascii_case) true true
        (session (idle_port [bstr "*" ++ _TERM]) false)
  /\ ~ cut_by_old_echo (H := ascii_case) false true
        (session (idle_port [bstr "ED *" ++ _TERM]) true).
Proof.
  split; [reflexivity | split; [reflexivity | split; [reflexivity |]]].
  split; intros Hcut.
  - specialize (Hcut (ustr "*" ++ CRLF) eq_refl).
    vm_compute in Hcut. discriminate Hcut.
  - specialize (Hcut (ustr "ED *" ++ CRLF) eq_refl).
    vm_compute in Hcut. discriminate Hcut.
Qed.

(** C4, as worded, fails: the setter and [send] both turn the echo state
    on when the device answered [!] and no acknowledgment. *)
Lemma echo_set_without_acknowledgment :
  ~ echo_changes_on_ack_only (echo_setter true)
      (session (idle_port [bstr "!" ++ _TERM]) false)
  /\ ~ echo_changes_on_ack_only
         (send (H := ascii_case) (PyBytes (bstr "EE ")) true)
         (session (idle_port [bstr "!" ++ _TERM]) false).
Proof.
  split; intros Hack.
  - destruct Hack as [response [Hdec Hin]]; [vm_compute; discriminate |].
    vm_compute in Hdec. injection Hdec as <-.
    vm_compute in Hin. intuition discriminate.
  - destruct Hack as [response [Hdec Hin]]; [vm_compute; discriminate |].
    vm_compute in Hdec. injection Hdec as <-.
    vm_compute in Hin. intuition discriminate.
Qed.

(** C4, amended: the echo state is written only after the toggle frame
    went out and a reply line was read and decoded, and what the reply
    says plays no part. On an idle port, whatever line decodes, the
    setter and [send] leave the echo state the command names; when the
    line does not decode, or when bytes were waiting, both raise and the
    echo state stays as it was. *)
Theorem echo_set_after_read_whatever_reply `{U : UnicodeCase}
        (command : candidate) (on strip_echo : bool) (st : PTU) :
  encode_command command = Ok (toggle on) ->
  let after := with_serial (after_round_trip (toggle on) (serial st)) st in
  match rx (serial st), utf8_decode (next_line (serial st)) with
  | [], Some response =>
      echo_setter on st = (Ok tt, with_echo on after)
      /\ snd (send command strip_echo st) = with_echo on after
  | [], None =>
      echo_setter on st = (Raise UnicodeDecodeError, after)
      /\ send command strip_echo st = (Raise UnicodeDecodeError, after)
  | _ :: _, _ =>
      fst (echo_setter on st) = Raise AttributeError
      /\ fst (send command strip_echo st) = Raise AttributeError
      /\ echo (snd (echo_setter on st)) = echo st
      /\ echo (snd (send command strip_echo st)) = echo st
  end.
Proof.
  intros He after.
  destruct (rx (serial st)) as [| x r] eqn:Hrx.
  - destruct (utf8_decode (next_line (serial st))) as [response |] eqn:Hdec.
    + split.
      * exact (@echo_setter_round_trip on st response Hrx Hdec).
      * rewrite (@send_round_trip U command (toggle on) strip_echo st
                   response He Hrx Hdec).
        rewrite toggled_toggle. reflexivity.
    + split.
      * exact (@echo_setter_undecodable on st Hrx Hdec).
      * exact (@send_undecodable U command (toggle on) strip_echo st
                 He Hrx Hdec).
  - assert (Hne : rx (serial st) <> []) by (rewrite Hrx; discriminate).
    rewrite (@echo_setter_unsolicited on st Hne).
    rewrite (@send_unsolicited U command (toggle on) strip_echo st He Hne).
    repeat split.
Qed.

Lemma echo_set_after_read_whatever_reply_witness :
  echo_setter false (session (idle_port [bstr "!" ++ _TERM]) true)
  = (Ok tt,
     with_echo false
       (with_serial
          (after_round_trip (toggle false) (idle_port [bstr "!" ++ _TERM]))
          (session (idle_port [bstr "!" ++ _TERM]) true))).
Proof.
  exact (proj1 (@echo_set_after_read_whatever_reply ascii_case
                  (PyBytes (bstr "ed ")) false true
                  (session (idle_port [bstr "!" ++ _TERM]) true) eq_refl)).
Defined.

(** ** Advisories (C2, C3) *)

(** No call of [send] adds a warning: the mnemonic, a [bytes], equals
    none of the [str] in the three lists, and reporting unsolicited
    input raises before [warn] is reached. *)
Lemma send_never_warns `{U : UnicodeCase} (command : candidate)
      (strip_echo : bool) (st : PTU) :
  warnings (snd (send command strip_echo st)) = warnings st.
Proof.
  destruct (encode_command command) as [frame | e] eqn:He.
  - destruct (rx (serial st)) as [| x r] eqn:Hrx.
    + destruct (utf8_decode (next_line (serial st))) as [response |] eqn:Hd.
      * rewrite (@send_round_trip U command frame strip_echo st response
                   He Hrx Hd). reflexivity.
      * rewrite (@send_undecodable U command frame strip_echo st He Hrx Hd).
        reflexivity.
    + rewrite (@send_unsolicited U command frame strip_echo st He).
      * reflexivity.
      * rewrite Hrx. discriminate.
  - rewrite (@send_rejected U command e strip_echo st He). reflexivity.
Qed.

(** Reporting unsolicited input always raises. *)
Lemma handle_async_input_raises (contents : pyval) (st : PTU) :
  exists e, __handle_async_input contents st = (Raise e, st).
Proof.
  destruct contents as [s | b].
  - unfold __handle_async_input, bind, lift, encode_method.
    destruct (utf8_encode s); simpl; eexists; reflexivity.
  - exists AttributeError. reflexivity.
Qed.

(** C2, the code at [send(m + ' ')] for each of the eleven mnemonics [m]
    of the three lists, echo off, the device answering [*]: the frame is
    transmitted and the payload returned, and no warning was issued. The
    mnemonic cut from the frame is a [bytes]: as a [str] it is in the
    lists, as a [bytes] it is not. *)
Theorem unsupported_commands_sent_without_advisory :
  Forall
    (fun v =>
       match v with
       | VStr m =>
           send (H := ascii_case) (PyStr (m ++ ustr " ")) true
                (session (idle_port [bstr "*" ++ _TERM]) false)
           = (Ok (ustr "*"),
              session (mkSerial [] [m ++ bstr " "] []) false)
           /\ py_in (VBytes m) [v] = false
           /\ py_in (VStr m) [v] = true
       | VBytes _ => False
       end)
    (limit_mnemonics ++ execution_mnemonics ++ monitor_mnemonics)
  /\ length (limit_mnemonics ++ execution_mnemonics ++ monitor_mnemonics)
     = 11%nat.
Proof.
  split; [| reflexivity].
  repeat (constructor; [repeat split |]). constructor.
Qed.

(** C3, the code at [send(b'PP ')] with five bytes waiting on the port:
    the five bytes are read, then [AttributeError] is raised; no warning
    was issued and the frame was not written. *)
Theorem unsolicited_input_raises :
  send (H := ascii_case) (PyBytes (bstr "PP ")) true
       (session (mkSerial (bstr "hello") [] [bstr "*" ++ _TERM]) false)
  = (Raise AttributeError,
     session (mkSerial [] [] [bstr "*" ++ _TERM]) false).
Proof. reflexivity. Qed.

(** ** The payload (C5) *)




(** ** Acknowledged commands (C6, C10) *)

Ltac split_writable Hw :=
  unfold writable, arguments in Hw; cbn [forallb] in Hw;
  repeat (apply andb_true_iff in Hw;
          let Hn := fresh "Hn" in destruct Hw as [Hn Hw]).

Ltac build_frame Hw :=
  split_writable Hw;
  unfold call, setPanPosition, setTiltPosition, setPanSpeed, setTiltSpeed,
    setPositionAndSpeed, setPanPositionOffset, setTiltPositionOffset,
    setPanSpeedOffset, setTiltSpeedOffset;
  unfold bind at 1;
  repeat (rewrite int_arg_ok by assumption; unfold bind at 1).

Ltac run_call Hw Hsend Hawait :=
  build_frame Hw;
  unfold frame_of in Hsend;
  rewrite Hsend; unfold bind at 1; rewrite Hawait.

(** C6: a position or speed command whose payload starts with a
    character [c] returns whether [c] is [*]; when it is not, the one
    thing done besides is a [RuntimeWarning] made of the command's label
    and the payload; nothing is raised. [st1] is the state [send] leaves
    and [st2] the state after the wait that [blocking] asks for. There
    is a payload only when the frame was built, its integers being
    within the limit of [str]. *)
Theorem mutation_acknowledged `{U : UnicodeCase} `{I : IntSettings}
        (m : mutation) (blocking : bool) (st st1 st2 : PTU) (c : N)
        (rest : text) :
  writable m = true ->
  send (PyBytes (frame_of m)) true st = (Ok (c :: rest), st1) ->
  await blocking st1 = (Ok tt, st2) ->
  call m blocking st
  = (Ok (c =? chr "*")%N,
     if (c =? chr "*")%N then st2
     else with_warnings
            (warnings st2 ++ [(RuntimeWarning, label_of m ++ c :: rest)])
            st2).
Proof.
  intros Hw Hsend Hawait.
  destruct m; run_call Hw Hsend Hawait; unfold bind, lift, label_of;
    rewrite py_getitem_0; destruct (c =? chr "*")%N; reflexivity.
Qed.

Lemma mutation_acknowledged_witness :
  call (H := ascii_case) (SetPanPosition 120) true
       (session (idle_port [bstr "! Maximum allowable Pan position is 100"
                            ++ _TERM; bstr "*" ++ _TERM]) false)
  = (Ok false,
     with_warnings
       [(RuntimeWarning,
         ustr "Pan position response: ! Maximum allowable Pan position is 100")]
       (session (mkSerial [] [bstr "PP120 "; bstr "A "] []) false)).
Proof.
  exact (@mutation_acknowledged ascii_case plain_int (SetPanPosition 120)
           true
           (session (idle_port [bstr "! Maximum allowable Pan position is 100"
                                ++ _TERM; bstr "*" ++ _TERM]) false)
           (session (mkSerial [] [bstr "PP120 "] [bstr "*" ++ _TERM]) false)
           (session (mkSerial [] [bstr "PP120 "; bstr "A "] []) false)
           (chr "!") (ustr " Maximum allowable Pan position is 100")
           eq_refl eq_refl eq_refl).
Defined.

(** C10: when the payload is empty, each position or speed command, and
    [halt], raises [IndexError] where it looks at the first character;
    [False] is not returned. There is a payload only when the frame was
    built, its integers being within the limit of [str]. *)
Theorem empty_payload_raises_IndexError `{U : UnicodeCase}
        `{I : IntSettings} (m : mutation) (blocking : bool)
        (st st1 st2 : PTU) :
  (writable m = true ->
   send (PyBytes (frame_of m)) true st = (Ok [], st1) ->
   await blocking st1 = (Ok tt, st2) ->
   call m blocking st = (Raise IndexError, st2))
  /\ (send (PyStr (ustr "H ")) true st = (Ok [], st1) ->
      halt st = (Raise IndexError, st1)).
Proof.
  split.
  - intros Hw Hsend Hawait.
    destruct m; run_call Hw Hsend Hawait; reflexivity.
  - intros Hsend. unfold halt. unfold bind at 1. rewrite Hsend. reflexivity.
Qed.

(** A silent device: the read times out with nothing, the payload is
    empty. *)
Lemma empty_payload_raises_IndexError_witness :
  call (H := ascii_case) (SetTiltSpeed 1000) false
       (session (idle_port []) false)
  = (Raise IndexError, session (mkSerial [] [bstr "TS1000 "] []) false)
  /\ halt (H := ascii_case) (session (idle_port []) false)
     = (Raise IndexError, session (mkSerial [] [bstr "H "] []) false).
Proof.
  split.
  - exact (proj1 (@empty_payload_raises_IndexError ascii_case plain_int
                    (SetTiltSpeed 1000) false
                    (session (idle_port []) false)
                    (session (mkSerial [] [bstr "TS1000 "] []) false)
                    (session (mkSerial [] [bstr "TS1000 "] []) false))
                 eq_refl eq_refl eq_refl).
  - exact (proj2 (@empty_payload_raises_IndexError ascii_case plain_int
                    (SetTiltSpeed 1000) false
                    (session (idle_port []) false)
                    (session (mkSerial [] [bstr "H "] []) false)
                    (session (mkSerial [] [bstr "H "] []) false))
                 eq_refl).
Defined.

(** ** The terminator check (C7) *)

(** C7, as worded, fails: the two bytes [ff 20] end in the space and are
    rejected, being no UTF-8. *)
Lemma undecodable_candidate_rejected :
  ~ space_terminated_passes (H := ascii_case) (PyBytes [255; 32]%N)
  /\ send (H := ascii_case) (PyBytes [255; 32]%N) true
          (session (idle_port [bstr "*" ++ _TERM]) false)
     = (Raise UnicodeDecodeError,
        session (idle_port [bstr "*" ++ _TERM]) false).
Proof.
  split; [| reflexivity].
  intros Hpass. specialize (Hpass eq_refl). vm_compute in Hpass.
  discriminate Hpass.
Qed.

(** C7, amended: for a candidate that is not empty,
    - a text whose last character is not the space makes [send] raise
      the [ValueError] of the check, and nothing is transmitted;
    - a [bytes] whose last byte is not the space makes [send] raise that
      [ValueError], or [UnicodeDecodeError] (a [ValueError] too) when
      the bytes are no UTF-8, and nothing is transmitted;
    - a text whose last character is the space passes the check: what
      is left to fail is its encoding;
    - a [bytes] that is UTF-8 and whose last byte is the space passes,
      and its upper-cased bytes are the frame. *)
Theorem terminator_check `{U : UnicodeCase} :
  (forall (s : text) (se : bool) (st : PTU),
      s <> [] -> last s 0%N <> chr " " ->
      send (PyStr s) se st = (Raise must_end_with_space, st))
  /\ (forall (b : bytes) (se : bool) (st : PTU),
         b <> [] -> last b 0%N <> chr " " ->
         exists e,
           (e = must_end_with_space \/ e = UnicodeDecodeError)
           /\ is_ValueError e = true
           /\ send (PyBytes b) se st = (Raise e, st))
  /\ (forall s : text,
         last s 0%N = chr " " ->
         encode_command (PyStr s)
         = of_option UnicodeEncodeError (utf8_encode (str_upper s)))
  /\ (forall (b : bytes) (d : text),
         last b 0%N = chr " " -> utf8_decode b = Some d ->
         encode_command (PyBytes b) = Ok (bytes_upper b)).
Proof.
  change (chr " ") with 32%N.
  split; [| split; [| split]].
  - intros s se st Hs Hl. apply send_rejected.
    rewrite (encode_command_str Hs).
    destruct (N.eqb_spec (last s 0%N) 32%N); [contradiction | reflexivity].
  - intros b se st Hb Hl.
    pose proof (encode_command_bytes Hb) as He.
    destruct (utf8_decode b) as [d |].
    + exists must_end_with_space. repeat split; [left; reflexivity |].
      apply send_rejected. rewrite He.
      destruct (N.eqb_spec (last b 0%N) 32%N); [contradiction | reflexivity].
    + exists UnicodeDecodeError. repeat split; [right; reflexivity |].
      apply send_rejected. exact He.
  - intros s Hl.
    assert (Hs : s <> []) by (intros ->; discriminate Hl).
    rewrite (encode_command_str Hs), Hl. reflexivity.
  - intros b d Hl Hd.
    assert (Hb : b <> []) by (intros ->; discriminate Hl).
    rewrite (encode_command_bytes Hb), Hd, Hl. reflexivity.
Qed.

Lemma terminator_check_witness :
  send (H := ascii_case) (PyStr (ustr "pp")) true
       (session (idle_port []) false)
  = (Raise must_end_with_space, session (idle_port []) false)
  /\ (exists e,
         (e = must_end_with_space \/ e = UnicodeDecodeError)
         /\ is_ValueError e = true
         /\ send (H := ascii_case) (PyBytes (bstr "pp")) true
                 (session (idle_port []) false)
            = (Raise e, session (idle_port []) false))
  /\ encode_command (H := ascii_case) (PyStr (ustr "pp "))
     = Ok (bstr "PP ")
  /\ encode_command (H := ascii_case) (PyBytes (bstr "pp "))
     = Ok (bstr "PP ").
Proof.
  destruct (@terminator_check ascii_case) as (Hs & Hb & Hps & Hpb).
  split; [| split; [| split]].
  - apply Hs; [discriminate | vm_compute; discriminate].
  - apply Hb; [discriminate | vm_compute; discriminate].
  - exact (Hps (ustr "pp ") eq_refl).
  - exact (Hpb (bstr "pp ") (ustr "pp ") eq_refl eq_refl).
Defined.

(** ** The control mode (C8) *)

Lemma py_getitem_nth {A} (s : list A) (i : nat) (d : A) :
  (i < length s)%nat -> py_getitem s (Z.of_nat i) = Ok (nth i s d).
Proof.
  intros Hi. unfold py_getitem.
  destruct (Z.ltb_spec (Z.of_nat i) 0) as [Hneg | _]; [lia |].
  cbv zeta. destruct (Z.ltb_spec (Z.of_nat i) 0) as [Hneg | _]; [lia |].
  rewrite Nat2Z.id. rewrite (nth_error_nth' s d Hi). reflexivity.
Qed.

(** What [split] returns are words: none is empty, none holds a space. *)
Lemma split_aux_words (s cur : text) :
  no_space cur = true ->
  Forall (fun t => t <> [] /\ no_space t = true) (split_aux s cur).
Proof.
  revert cur. induction s as [| c s IH]; intros cur Hcur; simpl.
  - destruct cur as [| x cur]; constructor; [| constructor].
    split.
    + intros H. apply (f_equal (@rev N)) in H.
      rewrite rev_involutive in H. discriminate H.
    + unfold no_space in *. rewrite forallb_forall in *.
      intros y Hy. apply Hcur. apply in_rev. exact Hy.
  - destruct (is_space c) eqn:Hc.
    + destruct cur as [| x cur]; [apply IH; reflexivity |].
      constructor; [| apply IH; reflexivity].
      split.
      * intros H. apply (f_equal (@rev N)) in H.
        rewrite rev_involutive in H. discriminate H.
      * unfold no_space in *. rewrite forallb_forall in *.
        intros y Hy. apply Hcur. apply in_rev. exact Hy.
    + apply IH. unfold no_space in *. simpl. rewrite Hc. exact Hcur.
Qed.

Lemma split_words (s : text) :
  Forall (fun t => t <> [] /\ no_space t = true) (split s).
Proof. apply split_aux_words. reflexivity. Qed.



(** C8: when the payload of the [C ] query has six words or more, the
    mode is positional exactly when the sixth, lower-cased, is
    [independent], and velocity for any other sixth word. *)
Theorem control_mode_by_sixth_token `{U : UnicodeCase} (st st1 : PTU)
        (payload : text) :
  send (PyBytes (bstr "C ")) true st = (Ok payload, st1) ->
  (6 <= length (split payload))%nat ->
  exists m,
    _determine_control_mode st = (Ok m, st1)
    /\ (m = mode_pos
        <-> str_lower (nth 5 (split payload) []) = ustr "independent")
    /\ (m = mode_vel
        <-> str_lower (nth 5 (split payload) []) <> ustr "independent").
Proof.
  intros Hsend Hlen.
  unfold _determine_control_mode. unfold bind at 1. rewrite Hsend.
  unfold bind, lift.
  change 5%Z with (Z.of_nat 5).
  rewrite (@py_getitem_nth _ (split payload) 5 [] Hlen).
  unfold ret.
  destruct (seq_eqb (str_lower (nth 5 (split payload) []))
                    (ustr "independent")) eqn:E.
  - apply seq_eqb_eq in E. exists mode_pos. repeat split; auto.
    + intros H. discriminate H.
    + intros H. contradiction.
  - exists mode_vel.
    assert (Hne : str_lower (nth 5 (split payload) []) <> ustr "independent").
    { intros H. apply seq_eqb_eq in H. congruence. }
    repeat split; auto.
    + intros H. discriminate H.
    + intros H. contradiction.
Qed.

Lemma control_mode_by_sixth_token_witness :
  exists m,
    _determine_control_mode (H := ascii_case)
      (session (idle_port [bstr "* PTU is in mode: INDEPENDENT now"
                           ++ _TERM]) false)
    = (Ok m, session (mkSerial [] [bstr "C "] []) false)
    /\ (m = mode_pos
        <-> str_lower (ustr "INDEPENDENT") = ustr "independent")
    /\ (m = mode_vel
        <-> str_lower (ustr "INDEPENDENT") <> ustr "independent").
Proof.
  apply (@control_mode_by_sixth_token ascii_case
           (session (idle_port [bstr "* PTU is in mode: INDEPENDENT now"
                                ++ _TERM]) false)
           (session (mkSerial [] [bstr "C "] []) false)
           (ustr "* PTU is in mode: INDEPENDENT now")).
  - reflexivity.
  - vm_compute. lia.
Defined.

(** The reply quoted in the source, [* PTU is in Independent Mode]: its
    sixth word is [Mode], and the mode comes out as velocity. *)
Example control_mode_of_quoted_reply :
  fst (_determine_control_mode (H := ascii_case)
         (session (idle_port [bstr "* PTU is in Independent Mode" ++ _TERM])
                  false))
  = Ok mode_vel.
Proof. reflexivity. Qed.

(** ** Angles to positions (C9) *)

(** C9, as worded, fails: at a pan resolution of 5 arc-seconds and the
    angle 1.00625 (the float [0x1.019999999999ap+0]) the code returns
    724, when [round(angle * 3600 / resolution)] is 725, in float
    arithmetic and on the exact values of the two floats alike. *)
Lemma angle_conversion_differs_from_documented :
  fst (panAngleToPosition 0x1.019999999999ap+0%float
         (session (idle_port []) false))
  <> documented_position 0x1.019999999999ap+0%float
       (panResolution (session (idle_port []) false))
  /\ fst (panAngleToPosition 0x1.019999999999ap+0%float
            (session (idle_port []) false)) = Ok 724%Z
  /\ documented_position 0x1.019999999999ap+0%float 5%float = Ok 725%Z
  /\ exact_position 0x1.019999999999ap+0%float 5%float = Some 725%Z.
Proof.
  split; [| split; [| split]].
  - vm_compute. discriminate.
  - vm_compute. reflexivity.
  - vm_compute. reflexivity.
  - vm_compute. reflexivity.
Qed.

(** C9, amended: [panAngleToPosition(angle)] is the float
    [angle / (panResolution / 3600)] rounded to the nearest integer, ties
    to even (a division by zero, a NaN or an infinity raises);
    [tiltAngleToPosition] computes the same from the pan resolution; both
    leave the state alone and depend on nothing in it but the pan
    resolution. *)
Theorem angle_conversion (angle : float) (st : PTU) :
  panAngleToPosition angle st
  = (rbind (py_truediv angle (panResolution st / 3600)%float) py_round, st)
  /\ tiltAngleToPosition angle st = panAngleToPosition angle st
  /\ (forall st' : PTU,
         panResolution st' = panResolution st ->
         fst (panAngleToPosition angle st') = fst (panAngleToPosition angle st)
         /\ fst (tiltAngleToPosition angle st')
            = fst (tiltAngleToPosition angle st)).
Proof.
  assert (Hpan : forall s,
             panAngleToPosition angle s
             = (rbind (py_truediv angle (panResolution s / 3600)%float)
                      py_round, s)).
  { intros s. unfold panAngleToPosition, bind, get_panResolution, lift.
    unfold py_truediv at 1.
    change (PrimFloat.eqb 3600 0) with false. cbv iota.
    destruct (py_truediv angle (panResolution s / 3600)) as [q | e];
      [| reflexivity].
    simpl. destruct (py_round q); reflexivity. }
  split; [apply Hpan | split; [reflexivity |]].
  intros st' Hres.
  change (tiltAngleToPosition angle st') with (panAngleToPosition angle st').
  change (tiltAngleToPosition angle st) with (panAngleToPosition angle st).
  rewrite !Hpan. simpl. rewrite Hres. split; reflexivity.
Qed.

Example angle_conversion_quarter_turn :
  fst (tiltAngleToPosition 90%float (session (idle_port []) false))
  = Ok 64800%Z.
Proof. vm_compute. reflexivity. Qed.

Lemma angle_conversion_witness :
  fst (tiltAngleToPosition 90%float
         (with_echo true (session (idle_port [bstr "*" ++ _TERM]) false)))
  = fst (tiltAngleToPosition 90%float (session (idle_port []) false)).
Proof.
  exact (proj2 (proj2 (proj2 (angle_conversion 90%float
                                (session (idle_port []) false)))
                  (with_echo true
                     (session (idle_port [bstr "*" ++ _TERM]) false))
                  eq_refl)).
Defined.

(** * More of the driver *)

(** ** One reply, one line *)

(** A line without a line feed before its terminator is read whole,
    and what follows it stays in the buffer. *)
Lemma read_until_from_line (body rest line : bytes) :
  ~ In 10%N body ->
  read_until_from _TERM (body ++ _TERM ++ rest) line
  = (rev line ++ body ++ _TERM, rest).
Proof.
  revert line. induction body as [| c body IH]; intros line Hlf.
  - simpl. destruct line as [| x line]; simpl.
    + reflexivity.
    + unfold seq_eqb.
      destruct (list_eq_dec N.eq_dec [13%N; x] [10%N; 13%N]) as [E | _];
        [discriminate E |].
      destruct (list_eq_dec N.eq_dec [10%N; 13%N] [10%N; 13%N]) as [_ | E];
        [| congruence].
      rewrite <- !app_assoc. reflexivity.
  - assert (Hc : c <> 10%N) by (intros ->; apply Hlf; left; reflexivity).
    assert (Hb : ~ In 10%N body) by (intros H; apply Hlf; right; exact H).
    cbn [app read_until_from].
    replace (seq_eqb (firstn (length _TERM) (c :: line)) (rev _TERM))
      with false.
    + rewrite (IH (c :: line) Hb). cbn [rev]. rewrite <- !app_assoc.
      reflexivity.
    + symmetry. unfold seq_eqb.
      destruct (list_eq_dec N.eq_dec (firstn (length _TERM) (c :: line))
                            (rev _TERM)) as [E | _]; [| reflexivity].
      simpl in E. destruct line; simpl in E; injection E; intros;
        congruence.
Qed.

Lemma read_until_line (body rest : bytes) :
  ~ In 10%N body ->
  read_until _TERM (body ++ _TERM ++ rest) = (body ++ _TERM, rest).
Proof.
  intros H. unfold read_until.
  rewrite (@read_until_from_line body rest [] H). reflexivity.
Qed.

(** Decoding goes through a concatenation when the first part is whole
    characters. *)
Lemma utf8_decode_app (a b : bytes) (x : text) :
  utf8_decode a = Some x ->
  utf8_decode (a ++ b) = option_map (app x) (utf8_decode b).
Proof.
  remember (length a) as n eqn:Hn. revert a x Hn.
  induction n as [n IH] using (well_founded_induction lt_wf).
  intros a x Hn Ha.
  destruct a as [| b0 r0].
  - simpl in Ha. injection Ha as <-. simpl.
    destruct (utf8_decode b); reflexivity.
  - simpl in Ha.
    destruct (N.ltb_spec b0 128) as [H0 | H0].
    { apply option_map_cons_some in Ha. destruct Ha as [d1 [Hr0 ->]].
      cbn [app utf8_decode].
      destruct (N.ltb_spec b0 128) as [_ | ?]; [| lia].
      rewrite (IH (length r0)) with (x := d1); auto.
      - destruct (utf8_decode b); reflexivity.
      - subst n. simpl. lia. }
    destruct (N.ltb_spec b0 194) as [H1 | H1]; [discriminate |].
    destruct (N.ltb_spec b0 224) as [H2 | H2].
    { destruct r0 as [| b1 r1]; [discriminate |].
      destruct (is_cont b1) eqn:C1; [| discriminate].
      apply option_map_cons_some in Ha. destruct Ha as [d1 [Hr0 ->]].
      cbn [app utf8_decode].
      destruct (N.ltb_spec b0 128) as [? | _]; [lia |].
      destruct (N.ltb_spec b0 194) as [? | _]; [lia |].
      destruct (N.ltb_spec b0 224) as [_ | ?]; [| lia].
      rewrite C1.
      rewrite (IH (length r1)) with (x := d1); auto.
      - destruct (utf8_decode b); reflexivity.
      - subst n. simpl. lia. }
    destruct (N.ltb_spec b0 240) as [H3 | H3].
    { destruct r0 as [| b1 [| b2 r2]]; try discriminate.
      destruct (is_cont b1 && is_cont b2
                && (negb (b0 =? 224)%N || (160 <=? b1)%N)
                && (negb (b0 =? 237)%N || (b1 <=? 159)%N)) eqn:C;
        [| discriminate].
      apply option_map_cons_some in Ha. destruct Ha as [d1 [Hr0 ->]].
      cbn [app utf8_decode].
      destruct (N.ltb_spec b0 128) as [? | _]; [lia |].
      destruct (N.ltb_spec b0 194) as [? | _]; [lia |].
      destruct (N.ltb_spec b0 224) as [? | _]; [lia |].
      destruct (N.ltb_spec b0 240) as [_ | ?]; [| lia].
      rewrite C.
      rewrite (IH (length r2)) with (x := d1); auto.
      - destruct (utf8_decode b); reflexivity.
      - subst n. simpl. lia. }
    destruct (N.ltb_spec b0 245) as [H4 | H4]; [| discriminate].
    destruct r0 as [| b1 [| b2 [| b3 r3]]]; try discriminate.
    destruct (is_cont b1 && is_cont b2 && is_cont b3
              && (negb (b0 =? 240)%N || (144 <=? b1)%N)
              && (negb (b0 =? 244)%N || (b1 <=? 143)%N)) eqn:C;
      [| discriminate].
    apply option_map_cons_some in Ha. destruct Ha as [d1 [Hr0 ->]].
    cbn [app utf8_decode].
    destruct (N.ltb_spec b0 128) as [? | _]; [lia |].
    destruct (N.ltb_spec b0 194) as [? | _]; [lia |].
    destruct (N.ltb_spec b0 224) as [? | _]; [lia |].
    destruct (N.ltb_spec b0 240) as [? | _]; [lia |].
    destruct (N.ltb_spec b0 245) as [_ | ?]; [| lia].
    rewrite C.
    rewrite (IH (length r3)) with (x := d1); auto.
    + destruct (utf8_decode b); reflexivity.
    + subst n. simpl. lia.
Qed.

Lemma read_until_from_unterminated (buf line : bytes) :
  ~ In 10%N buf ->
  read_until_from _TERM buf line = (rev line ++ buf, []).
Proof.
  revert line. induction buf as [| c buf IH]; intros line Hlf.
  - simpl. rewrite app_nil_r. reflexivity.
  - assert (Hc : c <> 10%N) by (intros ->; apply Hlf; left; reflexivity).
    assert (Hb : ~ In 10%N buf) by (intros H; apply Hlf; right; exact H).
    cbn [read_until_from].
    replace (seq_eqb (firstn (length _TERM) (c :: line)) (rev _TERM))
      with false.
    + rewrite (IH (c :: line) Hb). cbn [rev]. rewrite <- !app_assoc.
      reflexivity.
    + symmetry. unfold seq_eqb.
      destruct (list_eq_dec N.eq_dec (firstn (length _TERM) (c :: line))
                            (rev _TERM)) as [E | _]; [| reflexivity].
      simpl in E. destruct line; simpl in E; injection E; intros;
        congruence.
Qed.

(** [s[n : len(s) - 2]], whatever the two lengths. *)
Lemma py_slice_cut {A} (s : list A) (n : nat) :
  py_slice s (Z.of_nat n) (len s - 2)
  = skipn n (firstn (length s - 2) s).
Proof.
  unfold py_slice, slice_bound.
  destruct (Z.ltb_spec (Z.of_nat n) 0) as [? | _]; [lia |].
  assert (Hlen : len s = Z.of_nat (length s)) by reflexivity.
  destruct (Z.ltb_spec (len s - 2) 0) as [Hshort | Hlong].
  - replace (length s - 2)%nat with 0%nat by lia.
    replace (Z.to_nat (Z.max 0 (len s + (len s - 2))
                       - Z.min (Z.of_nat n) (len s))) with 0%nat by lia.
    simpl. destruct n; reflexivity.
  - rewrite (Z.min_l (len s - 2)) by lia.
    destruct (Nat.le_gt_cases n (length s - 2)) as [Hn | Hn].
    + rewrite Z.min_l by lia. rewrite Nat2Z.id.
      replace (Z.to_nat (len s - 2 - Z.of_nat n))
        with (length s - 2 - n)%nat by lia.
      rewrite firstn_skipn_comm.
      replace (n + (length s - 2 - n))%nat with (length s - 2)%nat by lia.
      reflexivity.
    + rewrite (skipn_all2 (firstn (length s - 2) s))
        by (rewrite length_firstn; lia).
      destruct (Nat.le_gt_cases n (length s)) as [Hn' | Hn'].
      * rewrite Z.min_l by lia.
        replace (Z.to_nat (len s - 2 - Z.of_nat n)) with 0%nat by lia.
        reflexivity.
      * rewrite Z.min_r by lia. rewrite Hlen, Nat2Z.id.
        rewrite skipn_all. apply firstn_nil.
Qed.

Lemma strip_reply_cut (cut : bool) (frame : bytes) (response : text) :
  strip_reply cut frame response
  = if cut
    then skipn (length frame) (firstn (length response - 2) response)
    else firstn (length response - 2) response.
Proof.
  unfold strip_reply. change (len _TERM) with 2%Z.
  destruct cut.
  - unfold len at 1. apply py_slice_cut.
  - change 0%Z with (Z.of_nat 0). rewrite py_slice_cut. reflexivity.
Qed.

(** The frames of the position and speed commands are no echo toggle. *)
Lemma toggled_frame_of (m : mutation) (e : bool) :
  toggled (frame_of m) e = e.
Proof.
  unfold toggled, seq_eqb.
  destruct (list_eq_dec N.eq_dec (frame_of m) (bstr "EE ")) as [E | _].
  { destruct m; discriminate E. }
  destruct (list_eq_dec N.eq_dec (frame_of m) (bstr "ED ")) as [E | _].
  { destruct m; discriminate E. }
  reflexivity.
Qed.

Section OneLine.
Context `{U : UnicodeCase}.

(** The device answers one line, and [extra] after it. *)
Lemma send_line (command : candidate) (frame body extra : bytes)
      (more : list bytes) (payload : text) (se : bool) (st : PTU) :
  encode_command command = Ok frame ->
  rx (serial st) = [] ->
  device (serial st) = (body ++ _TERM ++ extra) :: more ->
  ~ In 10%N body ->
  utf8_decode body = Some payload ->
  send command se st
  = (Ok (if se && toggled frame (echo st)
         then skipn (length frame) payload else payload),
     with_echo (toggled frame (echo st))
       (with_serial (mkSerial extra (tx (serial st) ++ [frame]) more) st)).
Proof.
  intros He Hrx Hdev Hlf Hdec.
  assert (Hread : read_until _TERM (rx (serial st) ++ hd [] (device (serial st)))
                  = (body ++ _TERM, extra)).
  { rewrite Hrx, Hdev. simpl hd. simpl app at 1.
    apply read_until_line. exact Hlf. }
  assert (Hline : utf8_decode (next_line (serial st))
                  = Some (payload ++ CRLF)).
  { unfold next_line. rewrite Hread. cbn [fst].
    rewrite (@utf8_decode_app body _TERM payload Hdec). reflexivity. }
  rewrite (@send_round_trip U command frame se st (payload ++ CRLF)
             He Hrx Hline).
  unfold after_round_trip. rewrite Hread, Hdev. cbn [snd tl].
  rewrite strip_reply_cut.
  replace (firstn (length (payload ++ CRLF) - 2) (payload ++ CRLF))
    with payload.
  - reflexivity.
  - rewrite length_app. simpl length.
    replace (length payload + 2 - 2)%nat with (length payload) by lia.
    rewrite firstn_app, Nat.sub_diag, firstn_all. simpl.
    rewrite app_nil_r. reflexivity.
Qed.

End OneLine.

(** ** [send] and the port *)

Section SendPort.
Context `{U : UnicodeCase}.

(** X3: when bytes are waiting on the port, [send] of any command that
    passes the check raises [AttributeError]; the waiting bytes have been
    read and are lost, nothing was written, no reply was taken from the
    device, and the echo state and the warnings are as before. *)
Theorem waiting_bytes_make_send_raise (command : candidate) (frame : bytes)
        (se : bool) (st : PTU) :
  encode_command command = Ok frame ->
  rx (serial st) <> [] ->
  fst (send command se st) = Raise AttributeError
  /\ rx (serial (snd (send command se st))) = []
  /\ tx (serial (snd (send command se st))) = tx (serial st)
  /\ device (serial (snd (send command se st))) = device (serial st)
  /\ echo (snd (send command se st)) = echo st
  /\ warnings (snd (send command se st)) = warnings st.
Proof.
  intros He Hrx.
  rewrite (@send_unsolicited U command frame se st He Hrx).
  repeat split.
Qed.

(** X4: when the line read is not UTF-8, [send] raises
    [UnicodeDecodeError] after the frame went out: the frame is in the
    log of what was written, the line is consumed, and the echo state is
    as before, for the two toggle frames too. *)
Theorem undecodable_reply_after_write (command : candidate) (frame : bytes)
        (se : bool) (st : PTU) :
  encode_command command = Ok frame ->
  rx (serial st) = [] ->
  utf8_decode (next_line (serial st)) = None ->
  fst (send command se st) = Raise UnicodeDecodeError
  /\ tx (serial (snd (send command se st))) = tx (serial st) ++ [frame]
  /\ echo (snd (send command se st)) = echo st.
Proof.
  intros He Hrx Hdec.
  rewrite (@send_undecodable U command frame se st He Hrx Hdec).
  repeat split.
Qed.

(** X5: a device that stays silent (the read times out with nothing)
    makes [send] return the empty payload, in both echo states; no
    exception tells the time-out from an empty answer, and the frame was
    written. *)
Theorem silent_device_gives_empty_payload (command : candidate)
        (frame : bytes) (se : bool) (st : PTU) :
  encode_command command = Ok frame ->
  rx (serial st) = [] ->
  hd [] (device (serial st)) = [] ->
  fst (send command se st) = Ok []
  /\ tx (serial (snd (send command se st))) = tx (serial st) ++ [frame].
Proof.
  intros He Hrx Hdev.
  assert (Hline : utf8_decode (next_line (serial st)) = Some []).
  { unfold next_line. rewrite Hrx, Hdev. reflexivity. }
  rewrite (@send_round_trip U command frame se st [] He Hrx Hline).
  rewrite strip_reply_cut. cbn [fst snd]. split.
  - destruct (se && toggled frame (echo st)); [| reflexivity].
    simpl. destruct (length frame); reflexivity.
  - reflexivity.
Qed.

(** X6: a reply that comes without terminator (the read times out on a
    partial line, no line feed in it) still loses its last two
    characters: with the echo not cut, the payload is the reply without
    them, and a reply of one character gives the empty payload. *)
Theorem unterminated_reply_loses_two (command : candidate) (frame : bytes)
        (reply : bytes) (more : list bytes) (response : text) (st : PTU) :
  encode_command command = Ok frame ->
  rx (serial st) = [] ->
  device (serial st) = reply :: more ->
  ~ In 10%N reply ->
  utf8_decode reply = Some response ->
  fst (send command false st)
  = Ok (firstn (length response - 2) response)
  /\ (length response <= 2 -> fst (send command false st) = Ok [])%nat.
Proof.
  intros He Hrx Hdev Hlf Hdec.
  assert (Hline : utf8_decode (next_line (serial st)) = Some response).
  { unfold next_line, read_until. rewrite Hrx, Hdev. simpl hd. simpl app.
    rewrite (@read_until_from_unterminated reply [] Hlf). exact Hdec. }
  rewrite (@send_round_trip U command frame false st response He Hrx Hline).
  rewrite strip_reply_cut. cbn [fst andb]. split; [reflexivity |].
  intros Hshort.
  replace (length response - 2)%nat with 0%nat by lia. reflexivity.
Qed.

(** X7: on an idle port, when the device answers one line (no line feed
    before the terminator) followed by [extra], [send] returns the
    decoded line without terminator, and without its first [len(frame)]
    characters when the echo is cut; it appends the frame, and nothing
    else, to what was written, takes one reply from the device, and
    leaves [extra], and nothing else, waiting on the port. *)
Theorem send_reads_one_line (command : candidate)
        (frame body extra : bytes) (more : list bytes) (payload : text)
        (se : bool) (st : PTU) :
  encode_command command = Ok frame ->
  rx (serial st) = [] ->
  device (serial st) = (body ++ _TERM ++ extra) :: more ->
  ~ In 10%N body ->
  utf8_decode body = Some payload ->
  fst (send command se st)
  = Ok (if se && echo (snd (send command se st))
        then skipn (length frame) payload else payload)
  /\ tx (serial (snd (send command se st))) = tx (serial st) ++ [frame]
  /\ rx (serial (snd (send command se st))) = extra
  /\ device (serial (snd (send command se st))) = more.
Proof.
  intros He Hrx Hdev Hlf Hdec.
  rewrite (@send_line U command frame body extra more payload se st
             He Hrx Hdev Hlf Hdec).
  repeat split.
Qed.

(** X8: bytes the device sends after the line of its answer stay on the
    port and make the next [send] fail: it raises [AttributeError], and
    its frame is not written. *)
Theorem leftover_bytes_fail_next_send (c1 c2 : candidate)
        (f1 f2 body extra : bytes) (more : list bytes) (payload : text)
        (se1 se2 : bool) (st : PTU) :
  encode_command c1 = Ok f1 ->
  encode_command c2 = Ok f2 ->
  rx (serial st) = [] ->
  device (serial st) = (body ++ _TERM ++ extra) :: more ->
  ~ In 10%N body ->
  utf8_decode body = Some payload ->
  extra <> [] ->
  fst ((send c1 se1;; send c2 se2) st) = Raise AttributeError
  /\ tx (serial (snd ((send c1 se1;; send c2 se2) st)))
     = tx (serial st) ++ [f1].
Proof.
  intros He1 He2 Hrx Hdev Hlf Hdec Hextra.
  unfold bind.
  rewrite (@send_line U c1 f1 body extra more payload se1 st
             He1 Hrx Hdev Hlf Hdec).
  rewrite (@send_unsolicited U c2 f2 se2 _ He2) by exact Hextra.
  split; reflexivity.
Qed.

End SendPort.

Lemma waiting_bytes_make_send_raise_witness :
  fst (send (H := ascii_case) (PyStr (ustr "h ")) true
         (session (mkSerial (bstr "boot") [] []) true))
  = Raise AttributeError.
Proof.
  apply (@waiting_bytes_make_send_raise ascii_case (PyStr (ustr "h "))
           (bstr "H ") true (session (mkSerial (bstr "boot") [] []) true)).
  - reflexivity.
  - discriminate.
Defined.

Lemma undecodable_reply_after_write_witness :
  fst (send (H := ascii_case) (PyBytes (bstr "EE ")) true
         (session (idle_port [[255; 13; 10]%N]) false))
  = Raise UnicodeDecodeError.
Proof.
  apply (@undecodable_reply_after_write ascii_case (PyBytes (bstr "EE "))
           (bstr "EE ") true (session (idle_port [[255; 13; 10]%N]) false));
    reflexivity.
Defined.

Lemma silent_device_gives_empty_payload_witness :
  fst (send (H := ascii_case) (PyBytes (bstr "PP ")) true
         (session (idle_port []) true))
  = Ok [].
Proof.
  apply (@silent_device_gives_empty_payload ascii_case
           (PyBytes (bstr "PP ")) (bstr "PP ") true
           (session (idle_port []) true)); reflexivity.
Defined.

Lemma unterminated_reply_loses_two_witness :
  fst (send (H := ascii_case) (PyBytes (bstr "PP ")) false
         (session (idle_port [bstr "* Curr"]) false))
  = Ok (ustr "* Cu").
Proof.
  apply (@unterminated_reply_loses_two ascii_case (PyBytes (bstr "PP "))
           (bstr "PP ") (bstr "* Curr") [] (ustr "* Curr")
           (session (idle_port [bstr "* Curr"]) false));
    try reflexivity.
  vm_compute. intuition discriminate.
Defined.

Lemma send_reads_one_line_witness :
  rx (serial (snd (send (H := ascii_case) (PyBytes (bstr "PP ")) true
                     (session (idle_port [bstr "PP * Current Pan position is 7"
                                          ++ _TERM ++ bstr "!T"]) true))))
  = bstr "!T".
Proof.
  apply (@send_reads_one_line ascii_case (PyBytes (bstr "PP ")) (bstr "PP ")
           (bstr "PP * Current Pan position is 7") (bstr "!T") []
           (ustr "PP * Current Pan position is 7") true
           (session (idle_port [bstr "PP * Current Pan position is 7"
                                ++ _TERM ++ bstr "!T"]) true));
    try reflexivity.
  vm_compute. intuition discriminate.
Defined.

Lemma leftover_bytes_fail_next_send_witness :
  fst ((send (H := ascii_case) (PyBytes (bstr "PP ")) true;;
        send (H := ascii_case) (PyBytes (bstr "TP ")) true)
         (session (idle_port [bstr "* Current Pan position is 7" ++ _TERM
                              ++ bstr "!T"; bstr "*" ++ _TERM]) false))
  = Raise AttributeError.
Proof.
  apply (@leftover_bytes_fail_next_send ascii_case (PyBytes (bstr "PP "))
           (PyBytes (bstr "TP ")) (bstr "PP ") (bstr "TP ")
           (bstr "* Current Pan position is 7") (bstr "!T")
           [bstr "*" ++ _TERM] (ustr "* Current Pan position is 7")
           true true
           (session (idle_port [bstr "* Current Pan position is 7" ++ _TERM
                                ++ bstr "!T"; bstr "*" ++ _TERM]) false));
    try reflexivity; try discriminate.
  vm_compute. intuition discriminate.
Defined.

(** ** The frames of the position and speed commands *)

Lemma below_a_decode (b : bytes) :
  forallb below_a b = true -> utf8_decode b = Some b.
Proof.
  induction b as [| c b IH]; [reflexivity |].
  simpl. intros H. apply andb_true_iff in H. destruct H as [Hc Hb].
  unfold below_a in Hc. apply N.ltb_lt in Hc.
  destruct (N.ltb_spec c 128) as [_ | ?]; [| lia].
  rewrite (IH Hb). reflexivity.
Qed.

Lemma below_a_upper (b : bytes) :
  forallb below_a b = true -> bytes_upper b = b.
Proof.
  induction b as [| c b IH]; [reflexivity |].
  simpl. intros H. apply andb_true_iff in H. destruct H as [Hc Hb].
  unfold below_a in Hc. apply N.ltb_lt in Hc.
  unfold bytes_upper in *. rewrite (IH Hb). f_equal.
  unfold ascii_upper. destruct (N.leb_spec 97 c); [lia | reflexivity].
Qed.

Lemma string_of_uint_below_a (u : Decimal.uint) :
  forallb below_a (ustr (NilEmpty.string_of_uint u)) = true.
Proof.
  induction u; simpl; try reflexivity; exact IHu.
Qed.

Lemma str_int_below_a (n : Z) : forallb below_a (str_int n) = true.
Proof.
  unfold str_int, NilZero.string_of_int, NilZero.string_of_uint.
  destruct (Z.to_int n) as [u | u].
  - destruct u; try apply string_of_uint_below_a; reflexivity.
  - destruct u; try (simpl; apply string_of_uint_below_a); reflexivity.
Qed.

Lemma frame_of_below_a (m : mutation) : forallb below_a (frame_of m) = true.
Proof.
  destruct m; unfold frame_of; rewrite ?forallb_app, ?str_int_below_a;
    reflexivity.
Qed.

Lemma frame_of_last (m : mutation) : last (frame_of m) 0%N = 32%N.
Proof.
  destruct m; unfold frame_of; rewrite ?app_assoc;
    rewrite last_app_nonempty by discriminate; reflexivity.
Qed.

(** Whatever the integers, the frame of a position or speed command
    passes the check of [send] and is transmitted as built. *)
Lemma frame_of_encoded `{U : UnicodeCase} (m : mutation) :
  encode_command (PyBytes (frame_of m)) = Ok (frame_of m).
Proof.
  assert (Hne : frame_of m <> []).
  { intros E. pose proof (frame_of_last m) as Hl. rewrite E in Hl.
    discriminate Hl. }
  rewrite (encode_command_bytes Hne).
  rewrite (below_a_decode _ (frame_of_below_a m)).
  rewrite (frame_of_last m). cbn.
  rewrite (below_a_upper _ (frame_of_below_a m)). reflexivity.
Qed.

Section Mutations.
Context `{U : UnicodeCase} `{I : IntSettings}.



(** An integer above the limit of [str] stops the command where its
    frame is built: nothing was done yet. *)
Lemma call_unwritable (m : mutation) (blocking : bool) (st : PTU) :
  writable m = false ->
  call m blocking st = (Raise too_long_to_write, st).
Proof.
  intros Hw. unfold writable, arguments in Hw.
  destruct m; cbn [forallb] in Hw;
    unfold call, setPanPosition, setTiltPosition, setPanSpeed, setTiltSpeed,
      setPositionAndSpeed, setPanPositionOffset, setTiltPositionOffset,
      setPanSpeedOffset, setTiltSpeedOffset;
    repeat (unfold bind at 1;
            match goal with
            | |- context [int_arg ?n ?s] =>
                destruct (within_digits n) eqn:?;
                [ rewrite (@int_arg_ok I n s) by assumption
                | rewrite (@int_arg_too_long I n s) by assumption;
                  reflexivity ]
            end);
    repeat match goal with
           | Hn : within_digits _ = true |- _ => rewrite Hn in Hw; clear Hn
           end;
    discriminate Hw.
Qed.


End Mutations.


(** [setPanPosition(10**4300)] under the default limit of 4300 digits:
    [ValueError], and the port untouched; the largest integer of 4300
    digits is written. *)
Example setPanPosition_above_limit :
  call (H := ascii_case) (SetPanPosition (10 ^ 4300)) false
       (session (idle_port [bstr "*" ++ _TERM]) false)
  = (Raise
       (ValueError
          ("Exceeds the limit (4300 digits) for integer string conversion;"
           ++ " use sys.set_int_max_str_digits() to increase the limit")),
     session (idle_port [bstr "*" ++ _TERM]) false)
  /\ writable (SetPanPosition (10 ^ 4300 - 1)) = true.
Proof.
  split.
  - rewrite call_unwritable by (vm_compute; reflexivity). reflexivity.
  - vm_compute. reflexivity.
Qed.

(** ** Position and speed commands against a device that answers *)

Section Answered.
Context `{U : UnicodeCase} `{I : IntSettings}.

Lemma call_after_send (m : mutation) (blocking : bool) (st st1 st2 : PTU)
      (payload : text) :
  writable m = true ->
  send (PyBytes (frame_of m)) true st = (Ok payload, st1) ->
  await blocking st1 = (Ok tt, st2) ->
  call m blocking st = acknowledged m payload st2.
Proof.
  intros Hw Hs Ha. destruct payload as [| c rest].
  - destruct m; run_call Hw Hs Ha; reflexivity.
  - destruct m; run_call Hw Hs Ha;
      unfold bind, lift, label_of, acknowledged;
      rewrite py_getitem_0; destruct (c =? chr "*")%N; reflexivity.
Qed.

(** One frame out, one line in, on a port that was idle. *)
Lemma send_answered (frame body : bytes) (more : list bytes) (line : text)
      (st : PTU) :
  encode_command (PyBytes frame) = Ok frame ->
  toggled frame (echo st) = echo st ->
  rx (serial st) = [] ->
  device (serial st) = (body ++ _TERM) :: more ->
  ~ In 10%N body ->
  utf8_decode body = Some line ->
  send (PyBytes frame) true st
  = (Ok (echo_cut (echo st) frame line), written [frame] more st).
Proof.
  intros He Ht Hrx Hdev Hlf Hdec.
  rewrite <- (app_nil_r _TERM) in Hdev.
  rewrite (@send_line U (PyBytes frame) frame body [] more line true st
             He Hrx Hdev Hlf Hdec).
  rewrite Ht. destruct st as [[r t d] e a b c1 c2 c3 c4 c5 c6 c7 w].
  reflexivity.
Qed.

Lemma await_answered (body : bytes) (more : list bytes) (line : text)
      (st : PTU) :
  rx (serial st) = [] ->
  device (serial st) = (body ++ _TERM) :: more ->
  ~ In 10%N body ->
  utf8_decode body = Some line ->
  await true st = (Ok tt, written [bstr "A "] more st).
Proof.
  intros Hrx Hdev Hlf Hdec. unfold await, bind.
  rewrite (@send_answered (bstr "A ") body more line st eq_refl eq_refl
             Hrx Hdev Hlf Hdec).
  reflexivity.
Qed.

Lemma written_written (f g : list bytes) (d1 d2 : list bytes) (st : PTU) :
  written g d2 (written f d1 st) = written (f ++ g) d2 st.
Proof.
  unfold written, with_serial. simpl. rewrite app_assoc. reflexivity.
Qed.

(** X11: a position or speed command without [blocking], its integers
    within the limit of [str], on an idle port, the device answering one
    line: exactly the frame is written; the payload is the line, without
    the echoed frame when the echo state is on; the call returns whether
    it starts with [*], warns once when it starts with something else,
    and raises [IndexError] when it is empty. Nothing is left on the
    port. *)
Theorem mutation_round_trip (m : mutation) (body : bytes)
        (more : list bytes) (line : text) (st : PTU) :
  writable m = true ->
  rx (serial st) = [] ->
  device (serial st) = (body ++ _TERM) :: more ->
  ~ In 10%N body ->
  utf8_decode body = Some line ->
  call m false st
  = acknowledged m (echo_cut (echo st) (frame_of m) line)
                 (written [frame_of m] more st).
Proof.
  intros Hw Hrx Hdev Hlf Hdec.
  apply call_after_send with (st1 := written [frame_of m] more st).
  - exact Hw.
  - apply send_answered with (body := body); auto.
    + apply frame_of_encoded.
    + apply toggled_frame_of.
  - reflexivity.
Qed.

(** X12: with [blocking], and the integers within the limit of [str],
    the wait command [A ] is written after the frame and its answer is
    read and dropped BEFORE the first answer is looked at: the wait is
    made also when the command was refused or the payload is empty, and
    the outcome is that of the first answer, whatever the second one
    says. *)
Theorem mutation_round_trip_blocking (m : mutation) (body body2 : bytes)
        (more : list bytes) (line line2 : text) (st : PTU) :
  writable m = true ->
  rx (serial st) = [] ->
  device (serial st) = (body ++ _TERM) :: (body2 ++ _TERM) :: more ->
  ~ In 10%N body -> ~ In 10%N body2 ->
  utf8_decode body = Some line ->
  utf8_decode body2 = Some line2 ->
  call m true st
  = acknowledged m (echo_cut (echo st) (frame_of m) line)
                 (written [frame_of m; bstr "A "] more st).
Proof.
  intros Hw Hrx Hdev Hlf Hlf2 Hdec Hdec2.
  apply call_after_send
    with (st1 := written [frame_of m] ((body2 ++ _TERM) :: more) st).
  - exact Hw.
  - apply send_answered with (body := body); auto.
    + apply frame_of_encoded.
    + apply toggled_frame_of.
  - rewrite (@await_answered body2 more line2
               (written [frame_of m] ((body2 ++ _TERM) :: more) st)
               eq_refl eq_refl Hlf2 Hdec2).
    rewrite written_written. reflexivity.
Qed.

(** X13: [halt], on an idle port, the device answering one line: the
    frame [H ] is written, and the call returns whether the payload
    starts with [*]; unlike the position and speed commands it warns of
    nothing when it does not. An empty payload raises [IndexError]. *)
Theorem halt_round_trip (body : bytes) (more : list bytes) (line : text)
        (st : PTU) :
  rx (serial st) = [] ->
  device (serial st) = (body ++ _TERM) :: more ->
  ~ In 10%N body ->
  utf8_decode body = Some line ->
  halt st
  = (match echo_cut (echo st) (bstr "H ") line with
     | [] => Raise IndexError
     | c :: _ => Ok (c =? chr "*")%N
     end,
     written [bstr "H "] more st).
Proof.
  intros Hrx Hdev Hlf Hdec. unfold halt. unfold bind at 1.
  rewrite <- (app_nil_r _TERM) in Hdev.
  rewrite (@send_line U (PyStr (ustr "H ")) (bstr "H ") body [] more line
             true st eq_refl Hrx Hdev Hlf Hdec).
  change (toggled (bstr "H ") (echo st)) with (echo st).
  cbn [andb].
  change (if echo st then skipn (length (bstr "H ")) line else line)
    with (echo_cut (echo st) (bstr "H ") line).
  generalize (echo_cut (echo st) (bstr "H ") line). intros payload.
  destruct st as [[r t d] e a b c1 c2 c3 c4 c5 c6 c7 w].
  destruct payload as [| c rest]; reflexivity.
Qed.

End Answered.

Lemma mutation_round_trip_witness :
  call (H := ascii_case) (SetTiltPositionOffset (-40)) false
       (session (idle_port [bstr "TO-40 *" ++ _TERM]) true)
  = (Ok true, session (mkSerial [] [bstr "TO-40 "] []) true).
Proof.
  apply (@mutation_round_trip ascii_case plain_int
           (SetTiltPositionOffset (-40))
           (bstr "TO-40 *") [] (ustr "TO-40 *")
           (session (idle_port [bstr "TO-40 *" ++ _TERM]) true));
    [ reflexivity | reflexivity | reflexivity
    | vm_compute; intuition discriminate | reflexivity ].
Defined.

Lemma mutation_round_trip_blocking_witness :
  call (H := ascii_case) (SetPanSpeed 900) true
       (session (idle_port [bstr "! Pan speed limit" ++ _TERM;
                            bstr "!" ++ _TERM]) false)
  = (Ok false,
     with_warnings
       [(RuntimeWarning, ustr "Pan speed response: ! Pan speed limit")]
       (session (mkSerial [] [bstr "PS900 "; bstr "A "] []) false)).
Proof.
  apply (@mutation_round_trip_blocking ascii_case plain_int
           (SetPanSpeed 900)
           (bstr "! Pan speed limit") (bstr "!") []
           (ustr "! Pan speed limit") (ustr "!")
           (session (idle_port [bstr "! Pan speed limit" ++ _TERM;
                                bstr "!" ++ _TERM]) false));
    [ reflexivity | reflexivity | reflexivity
    | vm_compute; intuition discriminate
    | vm_compute; intuition discriminate
    | reflexivity | reflexivity ].
Defined.

Lemma halt_round_trip_witness :
  halt (H := ascii_case) (session (idle_port [bstr "H !" ++ _TERM]) true)
  = (Ok false, session (mkSerial [] [bstr "H "] []) true).
Proof.
  apply (@halt_round_trip ascii_case (bstr "H !") [] (ustr "H !")
           (session (idle_port [bstr "H !" ++ _TERM]) true));
    try reflexivity.
  vm_compute. intuition discriminate.
Defined.

(** ** Both axes at once *)

Section Pairs.
Context `{U : UnicodeCase} `{I : IntSettings}.

Lemma call_pair_unfold (op : pair_op) (pan tilt : Z) (blocking : bool) :
  call_pair op pan tilt blocking
  = (resp1 <- call (pan_part op pan) false;;
     resp2 <- call (tilt_part op tilt) blocking;;
     ret (resp1 && resp2)).
Proof. destruct op; reflexivity. Qed.

(** A position or speed command on an idle port, the device answering
    one line, and a second line when the wait is asked for. *)
Lemma call_answered (m : mutation) (blocking : bool) (body wait : bytes)
      (more : list bytes) (line line' : text) (st : PTU) :
  writable m = true ->
  rx (serial st) = [] ->
  device (serial st)
  = (body ++ _TERM)
      :: (if blocking then (wait ++ _TERM) :: more else more) ->
  ~ In 10%N body -> ~ In 10%N wait ->
  utf8_decode body = Some line ->
  utf8_decode wait = Some line' ->
  call m blocking st
  = acknowledged m (echo_cut (echo st) (frame_of m) line)
      (written (frame_of m :: if blocking then [bstr "A "] else []) more st).
Proof.
  intros Hw Hrx Hdev Hlf Hlf' Hdec Hdec'.
  destruct blocking.
  - apply call_after_send
      with (st1 := written [frame_of m] ((wait ++ _TERM) :: more) st).
    + exact Hw.
    + apply send_answered with (body := body); auto.
      * apply frame_of_encoded.
      * apply toggled_frame_of.
    + rewrite (@await_answered U wait more line'
                 (written [frame_of m] ((wait ++ _TERM) :: more) st)
                 eq_refl eq_refl Hlf' Hdec').
      rewrite written_written. reflexivity.
  - apply call_after_send with (st1 := written [frame_of m] more st).
    + exact Hw.
    + apply send_answered with (body := body); auto.
      * apply frame_of_encoded.
      * apply toggled_frame_of.
    + reflexivity.
Qed.

(** X14: a command for both axes, both integers within the limit of
    [str], on an idle port, the device answering each frame with one
    line whose payload is not empty: the pan frame and the tilt frame
    are both written, in that order, also when the pan command was
    refused; the wait [A ] is written once, after the tilt frame, when
    [blocking] is set; the call returns whether both payloads start with
    [*]. *)
Theorem pair_round_trip (op : pair_op) (pan tilt : Z) (blocking : bool)
        (body1 body2 wait : bytes) (more : list bytes)
        (line1 line2 line3 : text) (c1 c2 : N) (rest1 rest2 : text)
        (st : PTU) :
  writable (pan_part op pan) = true ->
  writable (tilt_part op tilt) = true ->
  rx (serial st) = [] ->
  device (serial st)
  = (body1 ++ _TERM) :: (body2 ++ _TERM)
      :: (if blocking then (wait ++ _TERM) :: more else more) ->
  ~ In 10%N body1 -> ~ In 10%N body2 -> ~ In 10%N wait ->
  utf8_decode body1 = Some line1 ->
  utf8_decode body2 = Some line2 ->
  utf8_decode wait = Some line3 ->
  echo_cut (echo st) (frame_of (pan_part op pan)) line1 = c1 :: rest1 ->
  echo_cut (echo st) (frame_of (tilt_part op tilt)) line2 = c2 :: rest2 ->
  fst (call_pair op pan tilt blocking st)
  = Ok ((c1 =? chr "*")%N && (c2 =? chr "*")%N)
  /\ tx (serial (snd (call_pair op pan tilt blocking st)))
     = tx (serial st)
       ++ frame_of (pan_part op pan) :: frame_of (tilt_part op tilt)
          :: (if blocking then [bstr "A "] else [])
  /\ rx (serial (snd (call_pair op pan tilt blocking st))) = []
  /\ device (serial (snd (call_pair op pan tilt blocking st))) = more.
Proof.
  intros Hw1 Hw2 Hrx Hdev Hlf1 Hlf2 Hlf3 Hd1 Hd2 Hd3 Hp1 Hp2.
  assert (Hcall : exists final,
             call_pair op pan tilt blocking st
             = (Ok ((c1 =? chr "*")%N && (c2 =? chr "*")%N), final)
             /\ tx (serial final)
                = tx (serial st)
                  ++ frame_of (pan_part op pan)
                     :: frame_of (tilt_part op tilt)
                     :: (if blocking then [bstr "A "] else [])
             /\ rx (serial final) = []
             /\ device (serial final) = more).
  { rewrite call_pair_unfold. unfold bind at 1.
    rewrite (@call_answered (pan_part op pan) false body1 [] _ line1 []
               st Hw1 Hrx Hdev Hlf1 (fun F => F) Hd1 eq_refl).
    rewrite Hp1. unfold acknowledged at 1.
    set (st1 := if (c1 =? chr "*")%N then _ else _).
    assert (Hecho : echo st1 = echo st)
      by (unfold st1; destruct (c1 =? chr "*")%N; reflexivity).
    assert (Hrx1 : rx (serial st1) = [])
      by (unfold st1; destruct (c1 =? chr "*")%N; reflexivity).
    assert (Hdev1 : device (serial st1)
                    = (body2 ++ _TERM)
                        :: (if blocking then (wait ++ _TERM) :: more
                            else more))
      by (unfold st1; destruct (c1 =? chr "*")%N; reflexivity).
    assert (Htx1 : tx (serial st1)
                   = tx (serial st) ++ [frame_of (pan_part op pan)])
      by (unfold st1; destruct (c1 =? chr "*")%N; reflexivity).
    clearbody st1. unfold bind at 1.
    rewrite (@call_answered (tilt_part op tilt) blocking body2 wait more
               line2 line3 st1 Hw2 Hrx1 Hdev1 Hlf2 Hlf3 Hd2 Hd3).
    rewrite Hecho, Hp2. unfold acknowledged, ret.
    eexists. split; [reflexivity |].
    destruct ((c2 =? chr "*")%N);
      cbn [serial written with_serial with_warnings tx rx device];
      rewrite Htx1, <- app_assoc; repeat split. }
  destruct Hcall as [final (Hcall & Htx & Hrxf & Hdevf)].
  rewrite Hcall. cbn [fst snd]. repeat split; assumption.
Qed.

End Pairs.

Lemma pair_round_trip_witness :
  fst (call_pair (H := ascii_case) SetPosition 100 (-20) true
         (session (idle_port [bstr "! Pan limit" ++ _TERM;
                              bstr "*" ++ _TERM; bstr "*" ++ _TERM])
                  false))
  = Ok false
  /\ tx (serial
           (snd (call_pair (H := ascii_case) SetPosition 100 (-20) true
                   (session (idle_port [bstr "! Pan limit" ++ _TERM;
                                        bstr "*" ++ _TERM;
                                        bstr "*" ++ _TERM]) false))))
     = [bstr "PP100 "; bstr "TP-20 "; bstr "A "].
Proof.
  destruct (@pair_round_trip ascii_case plain_int SetPosition 100 (-20) true
              (bstr "! Pan limit") (bstr "*") (bstr "*") []
              (ustr "! Pan limit") (ustr "*") (ustr "*")
              (chr "!") (chr "*") (ustr " Pan limit") []
              (session (idle_port [bstr "! Pan limit" ++ _TERM;
                                   bstr "*" ++ _TERM; bstr "*" ++ _TERM])
                       false))
    as (Hr & Htx & _);
    [ reflexivity | reflexivity | reflexivity | reflexivity
    | vm_compute; intuition discriminate
    | vm_compute; intuition discriminate
    | vm_compute; intuition discriminate
    | reflexivity | reflexivity | reflexivity | reflexivity | reflexivity
    | ].
  split; [exact Hr | exact Htx].
Defined.

(** ** [int] of what [str] writes *)





Section IntOfStr.
Context `{I : IntSettings}.










End IntOfStr.

(** ** Queries *)

Lemma py_from_skipn {A} (s : list A) (k : nat) :
  py_from s (Z.of_nat k) = skipn k s.
Proof.
  unfold py_from, py_slice, slice_bound.
  destruct (Z.ltb_spec (Z.of_nat k) 0) as [? | _]; [lia |].
  assert (Hlen : len s = Z.of_nat (length s)) by reflexivity.
  destruct (Z.ltb_spec (len s) 0) as [? | _]; [lia |].
  rewrite (Z.min_l (len s)) by lia.
  destruct (Nat.le_gt_cases k (length s)) as [Hk | Hk].
  - rewrite Z.min_l by lia. rewrite Nat2Z.id.
    apply firstn_all2. rewrite length_skipn. lia.
  - rewrite Z.min_r by lia. rewrite Hlen, Nat2Z.id, skipn_all.
    rewrite (skipn_all2 s) by lia. apply firstn_nil.
Qed.

Lemma py_getitem_out {A} (s : list A) (i : nat) :
  (length s <= i)%nat -> py_getitem s (Z.of_nat i) = Raise IndexError.
Proof.
  intros Hi. unfold py_getitem.
  destruct (Z.ltb_spec (Z.of_nat i) 0) as [? | _]; [lia |].
  cbv zeta. destruct (Z.ltb_spec (Z.of_nat i) 0) as [? | _]; [lia |].
  rewrite Nat2Z.id.
  destruct (nth_error s i) eqn:E; [| reflexivity].
  assert (nth_error s i <> None) by congruence.
  apply nth_error_Some in H. lia.
Qed.

Section Queries.
Context `{U : UnicodeCase} `{I : IntSettings}.

(** Each query is [send], the extraction, and [int]. *)
Lemma ask_after_send (q : query) (st st1 : PTU) (payload : text) :
  send (PyBytes (query_frame q)) true st = (Ok payload, st1) ->
  ask q st = (rbind (numeral_of q payload) py_int, st1).
Proof.
  intros Hs.
  destruct q; unfold query_frame in Hs;
    unfold ask, _determine_min_pan, _determine_max_pan, _determine_min_tilt,
      _determine_max_tilt, _determine_max_pan_speed,
      _determine_max_tilt_speed, getPanPosition, getTiltPosition,
      getPanSpeed, getTiltSpeed, getTargetPanPosition,
      getTargetTiltPosition, getTargetPanSpeed, getTargetTiltSpeed;
    unfold bind at 1; rewrite Hs; unfold numeral_of, query_offset;
    try (unfold lift;
         match goal with
         | |- context [py_from payload ?k] =>
             let n := eval compute in (Z.to_nat k) in
             change k with (Z.of_nat n); rewrite py_from_skipn
         end; reflexivity);
    unfold bind, lift; destruct (py_getitem (split payload) 5); reflexivity.
Qed.



(** X16: a payload too short for the query makes it raise, and no
    number is returned: the queries that read from an offset raise the
    [ValueError] of [int] when the payload has no character past the
    offset (an empty payload, after a time-out, is one), and the queries
    that read the sixth word raise [IndexError] when there are five
    words or fewer. *)
Theorem query_short_payload (q : query) (st st1 : PTU) (payload : text) :
  send (PyBytes (query_frame q)) true st = (Ok payload, st1) ->
  match query_offset q with
  | Some k =>
      (length payload <= k)%nat -> ask q st = (Raise invalid_literal, st1)
  | None =>
      (length (split payload) <= 5)%nat ->
      ask q st = (Raise IndexError, st1)
  end.
Proof.
  intros Hs. rewrite (@ask_after_send q st st1 payload Hs).
  unfold numeral_of.
  destruct (query_offset q) as [k |]; intros Hlen.
  - rewrite skipn_all2 by exact Hlen. reflexivity.
  - change 5%Z with (Z.of_nat 5).
    rewrite (@py_getitem_out _ (split payload) 5 Hlen).
    reflexivity.
Qed.

End Queries.


Lemma query_short_payload_witness :
  ask (H := ascii_case) (H0 := plain_int) GetTiltPosition
      (session (idle_port []) false)
  = (Raise invalid_literal, session (mkSerial [] [bstr "TP "] []) false).
Proof.
  apply (@query_short_payload ascii_case plain_int GetTiltPosition
           (session (idle_port []) false)
           (session (mkSerial [] [bstr "TP "] []) false) [] eq_refl).
  vm_compute. lia.
Defined.

(** ** Queries for both axes *)

Section PairQueries.
Context `{U : UnicodeCase} `{I : IntSettings}.

Lemma ask_pair_unfold (q : pair_query) :
  ask_pair q
  = (pan <- ask (pan_query q);;
     tilt <- ask (tilt_query q);;
     ret (pan, tilt)).
Proof. destruct q; reflexivity. Qed.

Lemma ask_answered (q : query) (body : bytes) (more : list bytes)
      (line : text) (st : PTU) :
  rx (serial st) = [] ->
  device (serial st) = (body ++ _TERM) :: more ->
  ~ In 10%N body ->
  utf8_decode body = Some line ->
  ask q st
  = (rbind (numeral_of q (echo_cut (echo st) (query_frame q) line)) py_int,
     written [query_frame q] more st).
Proof.
  intros Hrx Hdev Hlf Hdec.
  apply ask_after_send.
  apply send_answered with (body := body); auto; destruct q; reflexivity.
Qed.


(** X18: when the pan answer does not give a number, a query for both
    axes raises what the pan query raises, and the tilt frame is never
    written. *)
Theorem pair_query_stops_at_pan (q : pair_query) (body : bytes)
        (more : list bytes) (line : text) (e : exn) (st : PTU) :
  rx (serial st) = [] ->
  device (serial st) = (body ++ _TERM) :: more ->
  ~ In 10%N body ->
  utf8_decode body = Some line ->
  rbind (numeral_of (pan_query q)
           (echo_cut (echo st) (query_frame (pan_query q)) line)) py_int
  = Raise e ->
  ask_pair q st = (Raise e, written [query_frame (pan_query q)] more st).
Proof.
  intros Hrx Hdev Hlf Hdec He.
  rewrite ask_pair_unfold. unfold bind at 1.
  rewrite (@ask_answered (pan_query q) body more line st Hrx Hdev Hlf Hdec).
  rewrite He. reflexivity.
Qed.

End PairQueries.


Lemma pair_query_stops_at_pan_witness :
  ask_pair (H := ascii_case) (H0 := plain_int) GetSpeed
    (session (idle_port [bstr "! Illegal command" ++ _TERM;
                         bstr "* Current Tilt speed is 0" ++ _TERM]) false)
  = (Raise invalid_literal,
     session (mkSerial [] [bstr "PD "]
                [bstr "* Current Tilt speed is 0" ++ _TERM]) false).
Proof.
  apply (@pair_query_stops_at_pan ascii_case plain_int GetSpeed
           (bstr "! Illegal command")
           [bstr "* Current Tilt speed is 0" ++ _TERM]
           (ustr "! Illegal command") invalid_literal
           (session (idle_port [bstr "! Illegal command" ++ _TERM;
                                bstr "* Current Tilt speed is 0" ++ _TERM])
                    false)).
  - reflexivity.
  - reflexivity.
  - vm_compute. intuition discriminate.
  - reflexivity.
  - reflexivity.
Defined.

(** ** The control mode and the echo state *)

Section Modes.
Context `{U : UnicodeCase}.

(** X19: the setter of [controlMode], given a string that lower-cases to
    [pos] or [vel], on an idle port: it writes [CI ] or [CV ], reads one
    line, and records the mode whatever that line says; a reply that
    refuses the command changes nothing to that. Given any other string
    it raises [ValueError] and nothing is written. *)
Theorem controlMode_setter_outcome (name : text) (st : PTU) :
  (forall (m : mode) (response : text),
      str_lower name = mode_name m ->
      rx (serial st) = [] ->
      utf8_decode (next_line (serial st)) = Some response ->
      controlMode_setter (VStr name) st
      = (Ok tt,
         with_controlMode m
           (with_serial (after_round_trip (mode_frame m) (serial st)) st)))
  /\ (str_lower name <> ustr "pos" -> str_lower name <> ustr "vel" ->
      controlMode_setter (VStr name) st = (Raise (ValueError mode_must_be), st)).
Proof.
  split.
  - intros m response Hname Hrx Hdec.
    unfold controlMode_setter. rewrite Hname.
    destruct st as [[r t d] e a b c1 c2 c3 c4 c5 c6 c7 w].
    simpl in Hrx. subst r. unfold next_line in Hdec. simpl in Hdec.
    destruct (read_until _TERM (hd [] d)) as [line rest] eqn:Hline.
    simpl in Hdec.
    destruct m; cbn [mode_name seq_eqb];
      unfold bind, __send_command, bind, ret, in_waiting, serial_write,
        __get_response, bind, lift, serial_read_until; simpl;
      rewrite Hline; simpl; rewrite Hdec; simpl;
      unfold set_controlMode, with_controlMode, with_serial,
        after_round_trip; simpl; rewrite Hline; reflexivity.
  - intros Hpos Hvel. unfold controlMode_setter.
    destruct (seq_eqb (str_lower name) (ustr "pos")) eqn:E1.
    { apply seq_eqb_eq in E1. contradiction. }
    destruct (seq_eqb (str_lower name) (ustr "vel")) eqn:E2.
    { apply seq_eqb_eq in E2. contradiction. }
    reflexivity.
Qed.

(** X20: [_determine_control_mode] on a payload of five words or fewer
    (an empty one, after a time-out, among them) raises [IndexError]. *)
Theorem control_mode_few_words (st st1 : PTU) (payload : text) :
  send (PyBytes (bstr "C ")) true st = (Ok payload, st1) ->
  (length (split payload) <= 5)%nat ->
  _determine_control_mode st = (Raise IndexError, st1).
Proof.
  intros Hs Hlen. unfold _determine_control_mode. unfold bind at 1.
  rewrite Hs. unfold bind, lift. change 5%Z with (Z.of_nat 5).
  rewrite (@py_getitem_out _ (split payload) 5 Hlen). reflexivity.
Qed.

(** X9: a [bytes] command and its upper-cased form are the same to
    [send]: same outcome, same state. *)
Theorem send_ignores_case (b : bytes) (se : bool) (st : PTU) :
  send (PyBytes (bytes_upper b)) se st = send (PyBytes b) se st.
Proof.
  assert (Hidem : bytes_upper (bytes_upper b) = bytes_upper b).
  { unfold bytes_upper. rewrite map_map. apply map_ext. intros c.
    destruct (ascii_upper_cases c) as [[Hc E] | [Hc E]]; rewrite E.
    - destruct (ascii_upper_cases (c - 32)) as [[Hc' _] | [_ E']];
        [lia | exact E'].
    - exact E. }
  assert (He : encode_command (PyBytes (bytes_upper b))
               = encode_command (PyBytes b)).
  { unfold encode_command. cbn [upper]. rewrite Hidem. reflexivity. }
  unfold send. rewrite He. reflexivity.
Qed.

End Modes.

(** A frame written and a line read, on an idle port. *)
Lemma exchange {A} (frame : bytes) (k : text -> M A) (st : PTU)
      (response : text) :
  rx (serial st) = [] ->
  utf8_decode (next_line (serial st)) = Some response ->
  bind (__send_command (PyBytes frame)) (fun _ => bind __get_response k) st
  = k response (with_serial (after_round_trip frame (serial st)) st).
Proof.
  intros Hrx Hdec.
  destruct st as [[r t d] e a b c1 c2 c3 c4 c5 c6 c7 w].
  simpl in Hrx. subst r. unfold next_line in Hdec. simpl in Hdec.
  destruct (read_until _TERM (hd [] d)) as [line rest] eqn:Hline.
  simpl in Hdec.
  unfold bind, __send_command, bind, ret, in_waiting, serial_write,
    __get_response, bind, lift, serial_read_until; simpl.
  rewrite Hline; simpl; rewrite Hdec; simpl.
  unfold with_serial, after_round_trip; simpl; rewrite Hline. reflexivity.
Qed.

Lemma determine_echo_state_round_trip (st : PTU) (response : text) :
  rx (serial st) = [] ->
  utf8_decode (next_line (serial st)) = Some response ->
  _determine_echo_state st
  = (if seq_eqb response echoing_on then Ok true
     else if seq_eqb response echoing_off then Ok false
     else Raise (RuntimeError
                   "When queried for echo state, device gave unexpected reply:"),
     with_serial (after_round_trip (bstr "E ") (serial st)) st).
Proof.
  intros Hrx Hdec. unfold _determine_echo_state.
  rewrite (@exchange bool (bstr "E ") _ st response Hrx Hdec).
  change (ustr "E * Echoing ON" ++ CRLF) with echoing_on.
  change (ustr "* Echoing OFF" ++ CRLF) with echoing_off.
  destruct (seq_eqb response echoing_on); [reflexivity |].
  destruct (seq_eqb response echoing_off); reflexivity.
Qed.

(** X21: [_determine_echo_state] on an idle port writes [E ] and reads
    one line. It returns [True] for the line [E * Echoing ON] and for no
    other, [False] for the line [* Echoing OFF] and for no other, and
    raises [RuntimeError] for every other line, the empty one of a
    time-out among them; the cached echo state is not touched. The state
    it returns is the one under which [send] cuts that same line down to
    a payload that starts with the acknowledgment. *)
Theorem determine_echo_state_outcome (st : PTU) (response : text) :
  rx (serial st) = [] ->
  utf8_decode (next_line (serial st)) = Some response ->
  (fst (_determine_echo_state st) = Ok true <-> response = echoing_on)
  /\ (fst (_determine_echo_state st) = Ok false <-> response = echoing_off)
  /\ (response <> echoing_on -> response <> echoing_off ->
      exists msg, fst (_determine_echo_state st) = Raise (RuntimeError msg))
  /\ echo (snd (_determine_echo_state st)) = echo st
  /\ tx (serial (snd (_determine_echo_state st)))
     = tx (serial st) ++ [bstr "E "]
  /\ (forall e, fst (_determine_echo_state st) = Ok e ->
      strip_reply e (bstr "E ") response
      = if e then ustr "* Echoing ON" else ustr "* Echoing OFF").
Proof.
  intros Hrx Hdec.
  rewrite (@determine_echo_state_round_trip st response Hrx Hdec).
  cbn [fst snd].
  destruct (seq_eqb response echoing_on) eqn:Eon.
  - apply seq_eqb_eq in Eon. subst response.
    split; [split; reflexivity |].
    split; [split; intros H; [discriminate H |
                              vm_compute in H; discriminate H] |].
    split; [intros H; exfalso; apply H; reflexivity |].
    split; [reflexivity |]. split; [reflexivity |].
    intros e [= <-]. reflexivity.
  - assert (Hon : response <> echoing_on).
    { intros H. apply seq_eqb_eq in H. congruence. }
    destruct (seq_eqb response echoing_off) eqn:Eoff.
    + apply seq_eqb_eq in Eoff. subst response.
      split; [split; intros H; [discriminate H |
                                vm_compute in H; discriminate H] |].
      split; [split; reflexivity |].
      split; [intros _ H; exfalso; apply H; reflexivity |].
      split; [reflexivity |]. split; [reflexivity |].
      intros e [= <-]. reflexivity.
    + assert (Hoff : response <> echoing_off).
      { intros H. apply seq_eqb_eq in H. congruence. }
      split; [split; intros H; [discriminate H | contradiction] |].
      split; [split; intros H; [discriminate H | contradiction] |].
      split; [intros _ _; eexists; reflexivity |].
      split; [reflexivity |]. split; [reflexivity |].
      intros e H. discriminate H.
Qed.

Lemma controlMode_setter_outcome_witness :
  controlMode_setter (H := ascii_case) (VStr (ustr "Vel"))
    (session (idle_port [bstr "! Illegal command" ++ _TERM]) false)
  = (Ok tt,
     with_controlMode mode_vel
       (session (mkSerial [] [bstr "CV "] []) false))
  /\ controlMode_setter (H := ascii_case) (VStr (ustr "velocity"))
       (session (idle_port []) false)
     = (Raise (ValueError mode_must_be), session (idle_port []) false).
Proof.
  split.
  - apply (proj1 (@controlMode_setter_outcome ascii_case (ustr "Vel")
                    (session (idle_port [bstr "! Illegal command" ++ _TERM])
                             false))
                 mode_vel (ustr "! Illegal command" ++ CRLF));
      reflexivity.
  - apply (proj2 (@controlMode_setter_outcome ascii_case (ustr "velocity")
                    (session (idle_port []) false)));
      vm_compute; discriminate.
Defined.

Lemma control_mode_few_words_witness :
  _determine_control_mode (H := ascii_case) (session (idle_port []) false)
  = (Raise IndexError, session (mkSerial [] [bstr "C "] []) false).
Proof.
  apply (@control_mode_few_words ascii_case (session (idle_port []) false)
           (session (mkSerial [] [bstr "C "] []) false) []).
  - reflexivity.
  - vm_compute. lia.
Defined.

Lemma determine_echo_state_outcome_witness :
  fst (_determine_echo_state
         (session (idle_port [bstr "E * Echoing ON" ++ _TERM]) false))
  = Ok true <-> ustr "E * Echoing ON" ++ CRLF = echoing_on.
Proof.
  apply (@determine_echo_state_outcome
           (session (idle_port [bstr "E * Echoing ON" ++ _TERM]) false)
           (ustr "E * Echoing ON" ++ CRLF)); reflexivity.
Defined.

(** ** What [send] leaves alone, and the echo setter before a [send] *)

(** X1: whatever the command and the state of the port, and whether it
    returns or raises, [send] issues no warning and changes nothing of
    the cached profile: resolutions, limits, maximum speeds and control
    mode are as before. Only the port and the echo state can differ. *)
Theorem send_keeps_profile `{U : UnicodeCase} (command : candidate)
        (se : bool) (st : PTU) :
  let st' := snd (send command se st) in
  warnings st' = warnings st
  /\ panResolution st' = panResolution st
  /\ tiltResolution st' = tiltResolution st
  /\ minPan st' = minPan st /\ maxPan st' = maxPan st
  /\ minTilt st' = minTilt st /\ maxTilt st' = maxTilt st
  /\ maxPanSpeed st' = maxPanSpeed st
  /\ maxTiltSpeed st' = maxTiltSpeed st
  /\ controlMode st' = controlMode st.
Proof.
  cbv zeta.
  destruct (encode_command command) as [frame | e] eqn:He.
  - destruct (rx (serial st)) as [| x r] eqn:Hrx.
    + destruct (utf8_decode (next_line (serial st))) as [response |] eqn:Hd.
      * rewrite (@send_round_trip U command frame se st response
                   He Hrx Hd). repeat split.
      * rewrite (@send_undecodable U command frame se st He Hrx Hd).
        repeat split.
    + rewrite (@send_unsolicited U command frame se st He).
      * repeat split.
      * rewrite Hrx. discriminate.
  - rewrite (@send_rejected U command e se st He). repeat split.
Qed.

(** X2: [__handle_async_input] raises whatever it is given, and warns of
    nothing: [AttributeError] for a [bytes], which has no [encode], and
    for a [str] the [TypeError] of adding a [bytes] to a [str] (or
    [UnicodeEncodeError] when the [str] cannot be encoded). The state is
    untouched. *)
Theorem handle_async_input_never_warns (contents : pyval) (st : PTU) :
  __handle_async_input contents st
  = (Raise match contents with
           | VBytes _ => AttributeError
           | VStr s =>
               match utf8_encode s with
               | Some _ => cannot_concatenate_bytes
               | None => UnicodeEncodeError
               end
           end,
     st).
Proof.
  destruct contents as [s | b]; [| reflexivity].
  unfold __handle_async_input, bind, lift, encode_method.
  destruct (utf8_encode s); reflexivity.
Qed.

Lemma after_round_trip_line (frame body : bytes) (more : list bytes)
      (p : Serial) :
  rx p = [] ->
  device p = (body ++ _TERM) :: more ->
  ~ In 10%N body ->
  next_line p = body ++ _TERM
  /\ after_round_trip frame p = mkSerial [] (tx p ++ [frame]) more.
Proof.
  intros Hrx Hdev Hlf. unfold next_line, after_round_trip.
  rewrite Hrx, Hdev.
  change ([] ++ hd [] ((body ++ _TERM) :: more)) with (body ++ _TERM).
  pose proof (@read_until_line body [] Hlf) as Hread.
  rewrite app_nil_r in Hread. rewrite Hread. split; reflexivity.
Qed.

(** X22: the echo setter, then [send] of a command that is no toggle,
    on an idle port, the device answering each with one line: the two
    frames are written in turn, and the reply to the command is cut by
    the echo state the setter was given, whatever the device answered
    to the toggle. *)
Theorem echo_setter_then_send `{U : UnicodeCase} (on : bool)
        (command : candidate) (frame body1 body2 : bytes)
        (more : list bytes) (line1 line2 : text) (st : PTU) :
  encode_command command = Ok frame ->
  toggled frame on = on ->
  rx (serial st) = [] ->
  device (serial st) = (body1 ++ _TERM) :: (body2 ++ _TERM) :: more ->
  ~ In 10%N body1 -> ~ In 10%N body2 ->
  utf8_decode body1 = Some line1 ->
  utf8_decode body2 = Some line2 ->
  (echo_setter on;; send command true) st
  = (Ok (echo_cut on frame line2),
     with_echo on (written [toggle on; frame] more st)).
Proof.
  intros He Ht Hrx Hdev Hlf1 Hlf2 Hd1 Hd2.
  destruct (@after_round_trip_line (toggle on) body1
              ((body2 ++ _TERM) :: more) (serial st) Hrx Hdev Hlf1)
    as [Hline Hafter].
  assert (Hdec : utf8_decode (next_line (serial st)) = Some (line1 ++ CRLF)).
  { rewrite Hline, (@utf8_decode_app body1 _TERM line1 Hd1). reflexivity. }
  unfold bind at 1.
  rewrite (@echo_setter_round_trip on st (line1 ++ CRLF) Hrx Hdec).
  rewrite Hafter.
  set (st1 := with_echo on _).
  assert (Hdev1 : device (serial st1) = (body2 ++ _TERM ++ []) :: more)
    by (rewrite app_nil_r; reflexivity).
  rewrite (@send_line U command frame body2 [] more line2 true st1
             He eq_refl Hdev1 Hlf2 Hd2).
  subst st1. cbn [echo with_echo andb]. rewrite Ht.
  unfold echo_cut, written, with_echo, with_serial. cbn.
  rewrite <- app_assoc. reflexivity.
Qed.

Lemma echo_setter_then_send_witness :
  (echo_setter true;;
   send (H := ascii_case) (PyBytes (bstr "PP ")) true)
    (session (idle_port [bstr "!" ++ _TERM;
                         bstr "* Current Pan position is 0" ++ _TERM])
             false)
  = (Ok (ustr "urrent Pan position is 0"),
     session (mkSerial [] [bstr "EE "; bstr "PP "] []) true).
Proof.
  apply (@echo_setter_then_send ascii_case true (PyBytes (bstr "PP "))
           (bstr "PP ") (bstr "!") (bstr "* Current Pan position is 0") []
           (ustr "!") (ustr "* Current Pan position is 0")
           (session (idle_port [bstr "!" ++ _TERM;
                                bstr "* Current Pan position is 0" ++ _TERM])
                    false));
    try reflexivity; vm_compute; intuition discriminate.
Defined.
